(** * fp-ts-exploration: a shallow embedding of the example modules

    The repository is a set of small TypeScript examples written against
    the fp-ts library: a password validation and hashing pipeline
    ([password.ts], [password-errors.ts]), semigroup instances (the
    semigroup example shipped next to [task-and-either.ts]), an equality
    instance obtained with [contramap] ([eq.ts]) and a bill calculator
    built with [pipe] and [flow] ([pipe-and-flow.ts]). Also covered: the
    pipeline of [task-and-either.ts], [elem] and the equality of points
    and of arrays of points of [eq.ts], the other semigroups of the
    semigroup example, and the Option example.

    Conventions of the embedding:
    - a TypeScript [number] is an IEEE 754 binary64 value, modelled by
      [spec_float] with precision 53 and maximal exponent 1024, so that
      [+], [*], [<], [<=] and [===] round, overflow and treat NaN and the
      two zeros exactly as the language does;
    - a [string] is its sequence of UTF-16 code units;
    - objects whose identity or mutation matters (passwords, users) live
      in a heap and are handled through their location; a call is a
      function from the heap to a completion (normal or throw) and the
      heap it leaves behind;
    - [Either] is the tagged union of fp-ts, [left] for failure and
      [right] for success. *)

From Stdlib Require Import ZArith NArith Bool List Lia Ascii String.
From Stdlib Require Import Floats.SpecFloat.
From stdpp Require Import gmap.
Import ListNotations.

(* ===================================================================== *)
(** * The language level: numbers, strings, completions, the heap *)
(* ===================================================================== *)

Module Number.
Local Open Scope Z_scope.

Definition prec : Z := 53.
Definition emax : Z := 1024.

(** A [number] is a binary64 float. *)
Definition number : Type := spec_float.

(** The well-formed representations: canonical mantissa and exponent
    in range. The concrete numbers used further down are all of this
    kind. *)
Definition is_number (x : number) : bool := valid_binary prec emax x.

Definition NaN : number := S754_nan.
Definition is_NaN (x : number) : bool :=
  match x with S754_nan => true | _ => false end.

(** The number denoted by an integer literal (rounded to nearest when
    the integer has more than 53 significant bits). *)
Definition of_Z (n : Z) : number := binary_normalize prec emax n 0 false.
Definition of_nat (n : nat) : number := of_Z (Z.of_nat n).

(** [x + y], [x * y], [x / y]. *)
Definition add (x y : number) : number := SFadd prec emax x y.
Definition mul (x y : number) : number := SFmul prec emax x y.
Definition div (x y : number) : number := SFdiv prec emax x y.

(** [x < y], [x <= y] and [x === y] on numbers: false as soon as one
    side is NaN; [+0 === -0] holds. *)
Definition lt (x y : number) : bool := SFltb x y.
Definition le (x y : number) : bool := SFleb x y.
Definition strict_eq (x y : number) : bool := SFeqb x y.

(** The literal [0.15]: the binary64 value nearest to 15/100, which is
    what a correctly rounded division of the two exact integers gives. *)
Definition lit_0_15 : number := Eval vm_compute in div (of_Z 15) (of_Z 100).

(** [Math.round]: NaN, the infinities and the zeros are returned as
    they are, so is every float whose exponent is non-negative (an
    integer already). Otherwise the value is [±m / 2^k] with [k > 0]
    and the result is [floor (x + 1/2)], computed exactly on integers:
    the nearest integer, a tie going up. A zero result keeps the sign of
    [x] (so [Math.round(-0.2)] is [-0]). *)
Definition Math_round (x : number) : number :=
  match x with
  | S754_finite s m e =>
      if 0 <=? e then x
      else
        let k := - e in
        let sm := if s then Z.neg m else Z.pos m in
        let n := (2 * sm + 2 ^ k) / 2 ^ (k + 1) in
        if n =? 0 then S754_zero s else of_Z n
  | _ => x
  end.

(** The safe integers: [Number.isSafeInteger]. *)
Definition safe (n : Z) : Prop := Z.abs n < 2 ^ 53.

(** Three integers whose sums, in either grouping, stay safe; and the
    same for products. *)
Definition safe_sums (a b c : Z) : Prop :=
  safe a /\ safe b /\ safe c /\ safe (a + b) /\ safe (b + c) /\ safe (a + b + c).
Definition safe_products (a b c : Z) : Prop :=
  safe a /\ safe b /\ safe c /\ safe (a * b) /\ safe (b * c) /\ safe (a * b * c).

(** The canonical binary64 representation of the integer [±m] when [m]
    has at most 53 bits: the mantissa is shifted left to 53 bits. *)
Definition canon (s : bool) (m : positive) : number :=
  let d := Z.pos (digits2_pos m) in
  S754_finite s (Pos.shiftl m (Z.to_N (53 - d))) (d - 53).

(** A sign and a magnitude; a zero magnitude keeps the sign. *)
Definition sign_mag (s : bool) (n : N) : number :=
  match n with
  | N0 => S754_zero s
  | Npos p => canon s p
  end.

(** Integers that can be added one after the other, from [a] on,
    without leaving the safe integers. *)
Fixpoint safe_run (a : Z) (l : list Z) : Prop :=
  match l with
  | [] => safe a
  | n :: l' => safe a /\ safe n /\ safe_run (a + n) l'
  end.

(** The results that are neither NaN nor negative. *)
Definition nonneg_shape (x : number) : Prop :=
  match x with
  | S754_zero false | S754_infinity false | S754_finite false _ _ => True
  | _ => False
  end.
End Number.

Abbreviation number := Number.number.

Module JsString.
(** A string is a list of UTF-16 code units. *)
Definition code_unit : Type := N.
Definition jsstring : Type := list code_unit.

(** [s.length], as a number. *)
Definition length_of (s : jsstring) : number := Number.of_nat (length s).

(** The character class [[A-Z]]: code units 0x41 to 0x5A. *)
Definition is_A_Z (c : code_unit) : bool := ((65 <=? c) && (c <=? 90))%N.

(** [/[A-Z]/.test(s)]: some code unit of [s] is in the class. The
    expression has no [g] or [y] flag, so [test] keeps no state. *)
Definition test_A_Z (s : jsstring) : bool := existsb is_A_Z s.

(** The strings a program can hold: fewer than [2^53] code units. *)
Definition short (s : list code_unit) : Prop := (Z.of_nat (length s) < 2 ^ 53)%Z.

(** A string literal with ASCII characters only. *)
Definition str (s : string) : jsstring := map N_of_ascii (list_ascii_of_string s).
End JsString.

Abbreviation jsstring := JsString.jsstring.

Module Heap.
(** Locations name objects; [===] on two objects compares locations. *)
Definition loc : Type := positive.

(** How a call ends: it returns a value or it throws. *)
Inductive completion (A : Type) : Type :=
| Normal (a : A)
| Throw (e : jsstring).
Arguments Normal {A} a.
Arguments Throw {A} e.

Section WithObjects.
(** [O] is the type of the objects kept in the heap. *)
Context {O : Type}.

(** A computation reads and extends the heap. [None] is reserved for
    the access of a location that holds no object, which no program can
    do: references are never dangling. *)
Definition M (A : Type) : Type :=
  gmap loc O -> option (completion A * gmap loc O).

Definition ret {A} (a : A) : M A := fun h => Some (Normal a, h).

Definition bind {A B} (c : M A) (k : A -> M B) : M B :=
  fun h =>
    match c h with
    | Some (Normal a, h') => k a h'
    | Some (Throw e, h') => Some (Throw e, h')
    | None => None
    end.

(** Reading the object behind a reference. *)
Definition read (l : loc) : M O :=
  fun h => match h !! l with Some o => Some (Normal o, h) | None => None end.

(** An object literal: a new object at a location not in use. *)
Definition alloc (o : O) : M loc :=
  fun h => let l := fresh (dom h) in Some (Normal l, <[l := o]> h).

(** Running code that does not touch the heap. *)
Definition lift {A} (c : completion A) : M A := fun h => Some (c, h).
End WithObjects.
Arguments M : clear implicits.
End Heap.

Import Heap.

(** Sequencing is written [x ← c; k]. *)
#[global] Instance M_ret {O} : MRet (M O) := fun A => @Heap.ret O A.
#[global] Instance M_bind {O} : MBind (M O) := fun A B k c => @Heap.bind O A B c k.

(* ===================================================================== *)
(** * fp-ts: Either, pipe and flow, Eq *)
(* ===================================================================== *)

Module E.
Inductive Either (L A : Type) : Type :=
| left (e : L)
| right (a : A).
Arguments left {L A} e.
Arguments right {L A} a.

Definition isLeft {L A} (ma : Either L A) : bool :=
  match ma with left _ => true | right _ => false end.

(** [E.map f]: [f] runs on a success only. The callback of [hash]
    builds an object, so [f] is a heap computation here. *)
Definition map {O L A B} (f : A -> M O B) (ma : Either L A) : M O (Either L B) :=
  match ma with
  | left e => mret (left e)
  | right a => b ← f a; mret (right b)
  end.

(** [E.chain f]: [f] runs on a success and may fail in turn. *)
Definition chain {O L A B} (f : A -> M O (Either L B)) (ma : Either L A)
  : M O (Either L B) :=
  match ma with
  | left e => mret (left e)
  | right a => f a
  end.

(** [E.mapLeft f]. *)
Definition mapLeft {L L' A} (f : L -> L') (ma : Either L A) : Either L' A :=
  match ma with
  | left e => left (f e)
  | right a => right a
  end.
End E.

Module Fn.
(** [pipe(a, ab)] and [pipe(a, ab, bc)]. *)
Definition pipe2 {A B} (a : A) (ab : A -> B) : B := ab a.
Definition pipe3 {A B C} (a : A) (ab : A -> B) (bc : B -> C) : C := bc (ab a).

(** [flow(ab, bc)]. *)
Definition flow2 {A B C} (ab : A -> B) (bc : B -> C) : A -> C := fun a => bc (ab a).
End Fn.

(* ===================================================================== *)
(** * password-errors.ts *)
(* ===================================================================== *)

Module PasswordErrors.
(** The two error classes. [_tag] is what tells them apart and is the
    constructor here; [message] is fixed by the class and, for the first,
    by [minLength], and is not modelled. *)
Inductive PasswordValidationError : Type :=
| MinLengthValidationError (minLength : number)
| CapitalLetterMissingValidationError.

(** [MinLengthValidationError.of] and
    [CapitalLetterMissingValidationError.of]. *)
Definition MinLengthValidationError_of (minLength : number) : PasswordValidationError :=
  MinLengthValidationError minLength.
Definition CapitalLetterMissingValidationError_of : PasswordValidationError :=
  CapitalLetterMissingValidationError.
End PasswordErrors.

(* ===================================================================== *)
(** * password.ts *)
(* ===================================================================== *)

Module Password.
Import PasswordErrors.

(** [_tag: 'Password'] is a one-value type. *)
Inductive PasswordTag : Type := TagPassword.

(** A password object. [isValidated] is not part of the interface, but
    [validate] writes it into the object it returns and the spread
    operator carries it along, so it is a property that may be absent. *)
Record Password : Type := mkPassword {
  _tag : PasswordTag;
  value : jsstring;
  isHashed : bool;
  isValidated : option bool
}.

(** [Password.of]; the name is a keyword here, hence the underscore. *)
Definition of_ (value : jsstring) : M Password loc :=
  alloc {| _tag := TagPassword; value := value; isHashed := false; isValidated := None |}.

Definition fromHashed (value : jsstring) : M Password loc :=
  alloc {| _tag := TagPassword; value := value; isHashed := true; isValidated := None |}.

(** Both fields are optional. *)
Record PasswordSpecification : Type := mkSpec {
  minLength : option number;
  capitalLetterRequired : option bool
}.

(** The destructuring of the parameter, with its defaults: a missing
    argument is [{}], a missing field takes its default. *)
Definition empty_spec : PasswordSpecification :=
  {| minLength := None; capitalLetterRequired := None |}.
Definition minLength_of (spec : option PasswordSpecification) : number :=
  default (Number.of_Z 0) (minLength (default empty_spec spec)).
Definition capitalLetterRequired_of (spec : option PasswordSpecification) : bool :=
  default false (capitalLetterRequired (default empty_spec spec)).

(** The object [{ ...password, isValidated: true }]. *)
Definition validated (p : Password) : Password :=
  {| _tag := _tag p; value := value p; isHashed := isHashed p; isValidated := Some true |}.

Definition validate (spec : option PasswordSpecification)
  : loc -> M Password (E.Either PasswordValidationError loc) :=
  let minLength := minLength_of spec in
  let capitalLetterRequired := capitalLetterRequired_of spec in
  fun password =>
    p ← read password;
    if Number.lt (JsString.length_of (value p)) minLength then
      mret (E.left (MinLengthValidationError_of minLength))
    else
      p ← read password;
      if capitalLetterRequired && negb (JsString.test_A_Z (value p)) then
        mret (E.left CapitalLetterMissingValidationError_of)
      else
        p ← read password;
        l ← alloc (validated p);
        mret (E.right l).

(** A value of class [Error]. *)
Record Error : Type := mkError { message : jsstring }.

(** A hash function is given the string only; it returns an [Either] or
    throws. *)
Definition HashFn : Type := jsstring -> completion (E.Either Error jsstring).

(** The object [{ ...password, value, isHashed: true }]. *)
Definition hashed (p : Password) (value' : jsstring) : Password :=
  {| _tag := _tag p; value := value'; isHashed := true; isValidated := isValidated p |}.

Definition hash (hashFn : HashFn) : loc -> M Password (E.Either Error loc) :=
  fun password =>
    p ← read password;
    Fn.pipe2
      (lift (hashFn (value p)))
      (fun ma =>
         r ← ma;
         E.map (fun value' => p ← read password; alloc (hashed p value')) r).
End Password.

(* ===================================================================== *)
(** * The semigroup example *)
(* ===================================================================== *)

Module Semigroup.
(** The interface of fp-ts: one member, [concat]. *)
Record Semigroup (A : Type) : Type := { concat : A -> A -> A }.
Arguments concat {A} _ _ _.

Definition semigroupProduct : Semigroup number :=
  {| concat := fun x y => Number.mul x y |}.

Definition semigroupSum : Semigroup number :=
  {| concat := fun x y => Number.add x y |}.

Record Point : Type := mkPoint { x : number; y : number }.

Definition semigroupPoint : Semigroup Point :=
  {| concat := fun p1 p2 =>
       {| x := concat semigroupSum (x p1) (x p2);
          y := concat semigroupSum (y p1) (y p2) |} |}.

(** The point with integer coordinates [a] and [b]. *)
Definition point_of_Z (a b : Z) : Point :=
  {| x := Number.of_Z a; y := Number.of_Z b |}.
(** ** Ord of fp-ts 2, as far as the example uses it *)

(** [Ordering] is [-1 | 0 | 1]. *)
Inductive Ordering : Type := Less | Equal | Greater.

Record Ord (A : Type) : Type := {
  ord_equals : A -> A -> bool;
  compare : A -> A -> Ordering
}.
Arguments ord_equals {A} _ _ _.
Arguments compare {A} _ _ _.

(** [ordNumber]: [equals] is [===] and
    [compare: (x, y) => x < y ? -1 : x > y ? 1 : 0]. *)
Definition ordNumber : Ord number :=
  {| ord_equals := fun x y => Number.strict_eq x y;
     compare := fun x y =>
       if Number.lt x y then Less else if Number.lt y x then Greater else Equal |}.

(** [fromCompare]: [optimizedCompare = (x, y) => x === y ? 0 : compare(x, y)].
    [strict] is [===] on the type at hand. *)
Definition fromCompare {A} (strict : A -> A -> bool) (compare : A -> A -> Ordering) : Ord A :=
  let optimizedCompare := fun x y => if strict x y then Equal else compare x y in
  {| ord_equals := fun x y =>
       match optimizedCompare x y with Equal => true | _ => false end;
     compare := optimizedCompare |}.

(** [contramap] of [Ord]:
    [f => fa => fromCompare((x, y) => fa.compare(f(x), f(y)))]. *)
Definition ord_contramap {A B} (strict : B -> B -> bool) (f : B -> A) (fa : Ord A) : Ord B :=
  fromCompare strict (fun x y => compare fa (f x) (f y)).

(** [min(O) = (x, y) => O.compare(x, y) === 1 ? y : x] and
    [max(O) = (x, y) => O.compare(x, y) === -1 ? y : x]. *)
Definition min {A} (O : Ord A) : A -> A -> A :=
  fun x y => match compare O x y with Greater => y | _ => x end.
Definition max {A} (O : Ord A) : A -> A -> A :=
  fun x y => match compare O x y with Less => y | _ => x end.

Definition getMeetSemigroup {A} (O : Ord A) : Semigroup A := {| concat := min O |}.
Definition getJoinSemigroup {A} (O : Ord A) : Semigroup A := {| concat := max O |}.

Definition semigroupMin : Semigroup number := getMeetSemigroup ordNumber.
Definition semigroupMax : Semigroup number := getJoinSemigroup ordNumber.

(** ** Structs and functions *)

Record Vector : Type := mkVector { from : Point; to : Point }.

(** [getStructSemigroup]: the result is built key by key, each key with
    its own semigroup. Here for a struct of two keys and for one of
    three, given by their constructor and projections. *)
Definition getStructSemigroup2 {A B R} (mk : A -> B -> R) (pa : R -> A) (pb : R -> B)
  (sa : Semigroup A) (sb : Semigroup B) : Semigroup R :=
  {| concat := fun x y => mk (concat sa (pa x) (pa y)) (concat sb (pb x) (pb y)) |}.
Definition getStructSemigroup3 {A B C R} (mk : A -> B -> C -> R)
  (pa : R -> A) (pb : R -> B) (pc : R -> C)
  (sa : Semigroup A) (sb : Semigroup B) (sc : Semigroup C) : Semigroup R :=
  {| concat := fun x y =>
       mk (concat sa (pa x) (pa y)) (concat sb (pb x) (pb y)) (concat sc (pc x) (pc y)) |}.

Definition semigroupVector : Semigroup Vector :=
  getStructSemigroup2 mkVector from to semigroupPoint semigroupPoint.

Definition vector_of_Z (a b c d : Z) : Vector :=
  {| from := point_of_Z a b; to := point_of_Z c d |}.

Definition semigroupAll : Semigroup bool := {| concat := fun x y => x && y |}.
Definition semigroupAny : Semigroup bool := {| concat := fun x y => x || y |}.

(** [getFunctionSemigroup(S)<A>()]: [concat: (f, g) => a => S.concat(f(a), g(a))]. *)
Definition getFunctionSemigroup {S A} (s : Semigroup S) : Semigroup (A -> S) :=
  {| concat := fun f g => fun a => concat s (f a) (g a) |}.

Definition semigroupPredicate : Semigroup (Point -> bool) :=
  getFunctionSemigroup semigroupAll.

(** [p.x >= 0] and [p.y >= 0]. *)
Definition isPositiveX (p : Point) : bool := Number.le (Number.of_Z 0) (x p).
Definition isPositiveY (p : Point) : bool := Number.le (Number.of_Z 0) (y p).
Definition isPositiveXY : Point -> bool := concat semigroupPredicate isPositiveX isPositiveY.

(** ** fold *)

(** [fold(S) = (a, as) => as.reduce(S.concat, a)]. *)
Definition fold {A} (S : Semigroup A) : A -> list A -> A :=
  fun a l => fold_left (concat S) l a.

Definition sum : number -> list number -> number := fold semigroupSum.

(** ** Option *)

Inductive Option (A : Type) : Type :=
| none
| some (value : A).
Arguments none {A}.
Arguments some {A} value.

(** [getApplySemigroup(S)]:
    [concat: (x, y) => isSome(x) && isSome(y) ? some(S.concat(x.value, y.value)) : none]. *)
Definition getApplySemigroup {A} (S : Semigroup A) : Semigroup (Option A) :=
  {| concat := fun x y =>
       match x, y with
       | some a, some b => some (concat S a b)
       | _, _ => none
       end |}.

Definition S : Semigroup (Option number) := getApplySemigroup semigroupSum.

(** ** Customers *)

Record Customer : Type := mkCustomer {
  name : jsstring;
  favoriteThings : list jsstring;
  hasMadePurchase : bool
}.

(** [===] on strings compares their code units. *)
Definition string_strict_eq (s t : jsstring) : bool := bool_decide (s = t).

(** [getMonoid<string>()] of [Array]: [concat] appends. *)
Definition getMonoid_concat {A} : Semigroup (list A) := {| concat := fun x y => x ++ y |}.

Definition semigroupCustomer : Semigroup Customer :=
  getStructSemigroup3 mkCustomer name favoriteThings hasMadePurchase
    (getJoinSemigroup (ord_contramap string_strict_eq JsString.length_of ordNumber))
    getMonoid_concat
    semigroupAny.

Definition customer1 : Customer :=
  {| name := JsString.str "Ryan";
     favoriteThings := [JsString.str "coffee"];
     hasMadePurchase := false |}.

Definition customer2 : Customer :=
  {| name := JsString.str "Ryan Aubrey";
     favoriteThings := [JsString.str "reading"];
     hasMadePurchase := true |}.

Definition merged : Customer := concat semigroupCustomer customer1 customer2.
End Semigroup.

(* ===================================================================== *)
(** * eq.ts *)
(* ===================================================================== *)

Module Eq.
(** [x === y] on the values of a type: numbers compare as numbers,
    objects by location. *)
Class StrictEquality (A : Type) : Type := strict_equal : A -> A -> bool.
#[global] Instance strict_equal_number : StrictEquality number := Number.strict_eq.
#[global] Instance strict_equal_object : StrictEquality loc := Pos.eqb.

Section WithObjects.
Context {O : Type}.

(** The interface of fp-ts: one member, [equals]. An instance for a type
    of objects reads their fields, hence the heap. *)
Record Eq (A : Type) : Type := { equals : A -> A -> M O bool }.
Arguments equals {A} _ _ _.

Definition eqNumber : Eq number :=
  {| equals := fun x y => mret (strict_equal x y) |}.

(** [fromEquals] of fp-ts 2: [equals: (x, y) => x === y || equals(x, y)]. *)
Definition fromEquals {A} `{StrictEquality A} (equals : A -> A -> M O bool) : Eq A :=
  {| equals := fun x y => if strict_equal x y then mret true else equals x y |}.

(** [contramap] of fp-ts 2:
    [f => fa => fromEquals((x, y) => fa.equals(f(x), f(y)))]. *)
Definition contramap {A B} `{StrictEquality B} (f : B -> M O A) (fa : Eq A) : Eq B :=
  fromEquals (fun x y => a ← f x; b ← f y; equals fa a b).
End WithObjects.
Arguments Eq : clear implicits.
Arguments equals {O A} _ _ _.

Record User : Type := mkUser { id : number; name : jsstring }.

(** [(u: User) => u.id], on a reference to a user. *)
Definition get_id (u : loc) : M User number := o ← read u; mret (id o).

Definition eqUser : Eq User loc := contramap get_id eqNumber.
(** ** elem *)

Section Elem.
Context {O A : Type}.

(** [list.some(p)]: the first element on which [p] holds ends the scan. *)
Fixpoint array_some (p : A -> M O bool) (items : list A) : M O bool :=
  match items with
  | [] => mret false
  | x :: rest => p x ≫= fun b : bool => if b then mret true else array_some p rest
  end.

Definition elem (E : Eq O A) : A -> list A -> M O bool :=
  fun a items => array_some (fun x => equals E x a) items.
End Elem.

(** ** Points and arrays of points *)

Record Point : Type := mkPoint { x : number; y : number }.

(** The objects of this part: points, and arrays holding references to
    points. *)
Inductive Obj : Type :=
| ObjPoint (p : Point)
| ObjArray (items : list loc).

Definition read_point (l : loc) : M Obj Point :=
  fun h => match h !! l with Some (ObjPoint p) => Some (Normal p, h) | _ => None end.
Definition read_array (l : loc) : M Obj (list loc) :=
  fun h => match h !! l with Some (ObjArray items) => Some (Normal items, h) | _ => None end.

(** One key [k] of a struct: [eqs[k].equals(x[k], y[k])]. *)
Definition field {O A} (get : loc -> M O A) (E : Eq O A) : loc -> loc -> M O bool :=
  fun x y => a ← get x; b ← get y; equals E a b.

(** [getStructEq] of fp-ts 2:
    [fromEquals((x, y) => { for (const k in eqs) { if (!eqs[k].equals(x[k], y[k])) return false }
    return true })]. *)
Fixpoint struct_equals {O} (fields : list (loc -> loc -> M O bool)) (x y : loc) : M O bool :=
  match fields with
  | [] => mret true
  | f :: rest => f x y ≫= fun b : bool => if b then struct_equals rest x y else mret false
  end.
Definition getStructEq {O} (fields : list (loc -> loc -> M O bool)) : Eq O loc :=
  fromEquals (struct_equals fields).

Definition eqPoint : Eq Obj loc :=
  getStructEq
    [ field (fun l => p ← read_point l; mret (x p)) eqNumber;
      field (fun l => p ← read_point l; mret (y p)) eqNumber ].

(** [xs.every((x, i) => E.equals(x, ys[i]))]. The scan stops at the first
    false. An index past the end of [ys] is not met: the lengths are
    compared first. *)
Fixpoint every_with {O A} (E : Eq O A) (xs ys : list A) : M O bool :=
  match xs, ys with
  | [], _ => mret true
  | x :: xs', y :: ys' =>
      equals E x y ≫= fun b : bool => if b then every_with E xs' ys' else mret false
  | _ :: _, [] => fun _ => None
  end.

(** [getEq] of [Array] in fp-ts 2:
    [fromEquals((xs, ys) => xs.length === ys.length && xs.every((x, i) => E.equals(x, ys[i])))]. *)
Definition getEq (E : Eq Obj loc) : Eq Obj loc :=
  fromEquals (fun xs ys =>
    lx ← read_array xs;
    ly ← read_array ys;
    if Number.strict_eq (Number.of_nat (length lx)) (Number.of_nat (length ly))
    then every_with E lx ly
    else mret false).

Definition eqArrayOfPoint : Eq Obj loc := getEq eqPoint.

(** In this heap every location of the list holds a point. *)
Definition points_at (h : gmap loc Obj) (ls : list loc) : Prop :=
  Forall (fun l => exists p, h !! l = Some (ObjPoint p)) ls.
End Eq.

(* ===================================================================== *)
(** * pipe-and-flow.ts *)
(* ===================================================================== *)

Module PipeAndFlow.
Record Bill : Type := mkBill { beforeTax : number; afterTax : number }.

Definition addTip (total : number) : Bill :=
  {| beforeTax := total;
     afterTax := Number.add total (Number.Math_round (Number.mul total Number.lit_0_15)) |}.

(** [items.reduce((prev, current) => prev + current, 0)]. *)
Definition sumLineItems (items : list number) : number :=
  fold_left (fun prev current => Number.add prev current) items (Number.of_Z 0).

Definition calculateBillTotal (items : list number) : Bill :=
  Fn.pipe3 items sumLineItems addTip.

Definition BillCalculator : Type := list number -> Bill.

Definition billCalulator (_ : unit) : BillCalculator :=
  Fn.flow2 sumLineItems addTip.
End PipeAndFlow.


(* ===================================================================== *)
(** * The Option example *)
(* ===================================================================== *)

Module OptionExample.
Import Semigroup.

(** A value that may be [undefined] or [null]. *)
Definition nullable (A : Type) : Type := option A.

(** [O.fromNullable], [O.map], [O.chain] and [O.flatten] of fp-ts 2. *)
Definition fromNullable {A} (a : nullable A) : Option A :=
  match a with None => none | Some v => some v end.
Definition map {A B} (f : A -> B) (ma : Option A) : Option B :=
  match ma with none => none | some a => some (f a) end.
Definition chain {A B} (f : A -> Option B) (ma : Option A) : Option B :=
  match ma with none => none | some a => f a end.
Definition flatten {A} (mma : Option (Option A)) : Option A :=
  chain (fun ma => ma) mma.

(** The objects the example pipes: [{ bar: { baz: ... } }], each key
    possibly undefined. *)
Record Bar : Type := mkBar { baz : nullable jsstring }.
Record Foo : Type := mkFoo { bar : nullable Bar }.

Definition getBar (foo : Foo) : nullable Bar := bar foo.
Definition getBaz (b : Bar) : nullable jsstring := baz b.

(** The three expressions of the example, the piped object being their
    argument (the source pipes [{ bar: undefined }] into the first two
    and [{ bar: { baz: 'hello' } }] into the third). *)
Definition nested (foo : nullable Foo) : Option (Option (nullable jsstring)) :=
  Fn.pipe3 foo fromNullable
    (map (fun o => Fn.pipe3 (bar o) fromNullable (map (fun b => baz b)))).

Definition flattened (foo : nullable Foo) : Option (nullable jsstring) :=
  Fn.pipe2 (nested foo) flatten.

Definition chained (foo : nullable Foo) : Option (nullable jsstring) :=
  Fn.pipe2
    (Fn.pipe3 foo fromNullable (map getBar))
    (chain (Fn.flow2 fromNullable (map getBaz))).
End OptionExample.

(* ===================================================================== *)
(** * Sample values *)
(* ===================================================================== *)

Module Samples.
Import Password.

(** The decimal literals [0.1], [0.2] and [0.3]. *)
Definition lit_0_1 : number := Eval vm_compute in Number.div (Number.of_Z 1) (Number.of_Z 10).
Definition lit_0_2 : number := Eval vm_compute in Number.div (Number.of_Z 2) (Number.of_Z 10).
Definition lit_0_3 : number := Eval vm_compute in Number.div (Number.of_Z 3) (Number.of_Z 10).

(** The specification of the pipeline of [task-and-either.ts]:
    [{ minLength: 8, capitalLetterRequired: true }]. *)
Definition spec8 : option PasswordSpecification :=
  Some {| minLength := Some (Number.of_Z 8); capitalLetterRequired := Some true |}.

(** A heap with one password. *)
Definition pw (s : string) : Password :=
  {| _tag := TagPassword; value := JsString.str s; isHashed := false; isValidated := None |}.
Definition heap_of (s : string) : gmap loc Password := {[ 1%positive := pw s ]}.

(** The hash function of the pipeline, [(value) => E.right(`HASH${value}HASH`)],
    and one that fails. *)
Definition hash_ok : HashFn :=
  fun v => Normal (E.right (JsString.str "HASH" ++ v ++ JsString.str "HASH")).
Definition hash_ko : HashFn :=
  fun v => Normal (E.left {| message := JsString.str "no entropy" |}).

(** Two distinct users with the same fields, the id being NaN. *)
Definition nan_users : gmap loc Eq.User :=
  {[ 1%positive := {| Eq.id := Number.NaN; Eq.name := JsString.str "Ryan" |};
     2%positive := {| Eq.id := Number.NaN; Eq.name := JsString.str "Ryan" |} ]}.

(** The two users compared at the end of [eq.ts]. *)
Definition ryans : gmap loc Eq.User :=
  {[ 1%positive := {| Eq.id := Number.of_Z 123; Eq.name := JsString.str "Ryan" |};
     2%positive := {| Eq.id := Number.of_Z 234; Eq.name := JsString.str "Ryan" |} ]}.
(** The heap of the last call of [elem] in [eq.ts]: the array looked
    for at 1, the two arrays of the list at 5 and 9, each object literal
    being an object of its own. *)
Definition pt (a b : Z) : Eq.Obj := Eq.ObjPoint {| Eq.x := Number.of_Z a; Eq.y := Number.of_Z b |}.
Definition arrays_of_points : gmap loc Eq.Obj :=
  {[ 1%positive := Eq.ObjArray [2; 3; 4]%positive;
     2%positive := pt 1 1; 3%positive := pt 2 2; 4%positive := pt 3 3;
     5%positive := Eq.ObjArray [6; 7; 8]%positive;
     6%positive := pt 2 2; 7%positive := pt 1 1; 8%positive := pt 3 3;
     9%positive := Eq.ObjArray [10; 11; 12; 13]%positive;
     10%positive := pt 0 0; 11%positive := pt 1 1; 12%positive := pt 2 2;
     13%positive := pt 3 3 ]}.
End Samples.

(* ===================================================================== *)
(** * task-and-either.ts: the pipeline *)
(* ===================================================================== *)

Module TaskAndEither.
Import Password PasswordErrors.

(** [(value) => E.right(`HASH${value}HASH`)]. *)
Definition hashFn : HashFn :=
  fun value => Normal (E.right (JsString.str "HASH" ++ value ++ JsString.str "HASH")).

(** [flow(Password.of, Password.validate({ minLength: 8, capitalLetterRequired: true }),
    E.chain(Password.hash(hashFn)))]. The left type of the result is the
    union of the validation errors and [Error]; [inl] and [inr] keep the
    two apart. *)
Definition pipeline : jsstring -> M Password (E.Either (PasswordValidationError + Error) loc) :=
  fun value =>
    l ← of_ value;
    r ← validate (Some {| minLength := Some (Number.of_Z 8);
                          capitalLetterRequired := Some true |}) l;
    E.chain (fun l' => r' ← hash hashFn l'; mret (E.mapLeft inr r')) (E.mapLeft inl r).
End TaskAndEither.

(* ===================================================================== *)
(** * Facts about binary64 arithmetic *)
(* ===================================================================== *)

Section FloatFacts.
Local Open Scope Z_scope.

(** ** Shifting mantissas *)

Lemma iter_pos_iter {A} (f : A -> A) (p : positive) (a : A) :
  SpecFloat.iter_pos f p a = Pos.iter f a p.
Proof.
  revert a. induction p as [p IH | p IH |]; intros a; simpl.
  - rewrite !IH. now rewrite <- !Pos.iter_swap.
  - now rewrite !IH.
  - reflexivity.
Qed.

Lemma digits2_lower (p : positive) : 2 ^ (Z.pos (digits2_pos p) - 1) <= Z.pos p.
Proof.
  induction p as [p IH | p IH |]; simpl digits2_pos.
  - rewrite Pos2Z.inj_succ. replace (Z.succ (Z.pos (digits2_pos p)) - 1) with (Z.succ (Z.pos (digits2_pos p) - 1)) by lia.
    rewrite Z.pow_succ_r by lia. lia.
  - rewrite Pos2Z.inj_succ. replace (Z.succ (Z.pos (digits2_pos p)) - 1) with (Z.succ (Z.pos (digits2_pos p) - 1)) by lia.
    rewrite Z.pow_succ_r by lia. lia.
  - simpl. lia.
Qed.

Lemma digits2_upper (p : positive) : Z.pos p < 2 ^ Z.pos (digits2_pos p).
Proof.
  induction p as [p IH | p IH |]; simpl digits2_pos.
  - rewrite Pos2Z.inj_succ, Z.pow_succ_r by lia. lia.
  - rewrite Pos2Z.inj_succ, Z.pow_succ_r by lia. lia.
  - simpl. lia.
Qed.

(** The number of digits is the only [d] with [2^(d-1) <= p < 2^d]. *)
Lemma digits2_unique (p : positive) (d : Z) :
  2 ^ (d - 1) <= Z.pos p < 2 ^ d -> Z.pos (digits2_pos p) = d.
Proof.
  intros [Hl Hu].
  pose proof (digits2_lower p) as Hl'. pose proof (digits2_upper p) as Hu'.
  assert (0 < d).
  { destruct (Z.lt_ge_cases 0 d) as [|Hd]; [assumption|].
    destruct (Z.eq_dec d 0) as [->|]; [simpl in Hu; lia|].
    rewrite (Z.pow_neg_r 2 d) in Hu by lia. lia. }
  destruct (Z.lt_trichotomy (Z.pos (digits2_pos p)) d) as [Hlt | [Heq | Hgt]]; [| assumption |].
  - assert (2 ^ Z.pos (digits2_pos p) <= 2 ^ (d - 1)) by (apply Z.pow_le_mono_r; lia). lia.
  - assert (2 ^ d <= 2 ^ (Z.pos (digits2_pos p) - 1)) by (apply Z.pow_le_mono_r; lia). lia.
Qed.

Lemma digits2_mul_pow2 (M m : positive) (k : Z) :
  0 <= k -> Z.pos M = Z.pos m * 2 ^ k ->
  Z.pos (digits2_pos M) = Z.pos (digits2_pos m) + k.
Proof.
  intros Hk HM. apply digits2_unique. rewrite HM.
  pose proof (digits2_lower m). pose proof (digits2_upper m).
  replace (Z.pos (digits2_pos m) + k - 1) with ((Z.pos (digits2_pos m) - 1) + k) by lia.
  rewrite !Z.pow_add_r by lia.
  assert (0 < 2 ^ k) by (apply Z.pow_pos_nonneg; lia).
  split; nia.
Qed.

Lemma iter_xO_pow2 (m d : positive) : Z.pos (Pos.iter xO m d) = Z.pos m * 2 ^ Z.pos d.
Proof.
  induction d as [| d IH] using Pos.peano_ind.
  - simpl. lia.
  - rewrite Pos.iter_succ, Pos2Z.inj_xO, IH, Pos2Z.inj_succ, Z.pow_succ_r by lia. lia.
Qed.

(** Shifting right an exact record whose low bits are zero stays exact. *)
Lemma iter_shr_1_exact (m : positive) (d : positive) :
  Pos.iter shr_1 (Build_shr_record (Z.pos (Pos.iter xO m d)) false false) d
  = Build_shr_record (Z.pos m) false false.
Proof.
  induction d as [| d IH] using Pos.peano_ind.
  - reflexivity.
  - rewrite Pos.iter_succ_r. rewrite Pos.iter_succ. simpl shr_1. exact IH.
Qed.


(** ** Integers that fit the mantissa *)

Lemma shiftl_pow2 (m : positive) (t : Z) :
  0 <= t -> Z.pos (Pos.shiftl m (Z.to_N t)) = Z.pos m * 2 ^ t.
Proof.
  intros Ht. destruct t as [| p | p].
  - unfold Z.to_N, Pos.shiftl. rewrite Z.pow_0_r. lia.
  - apply iter_xO_pow2.
  - lia.
Qed.

Lemma shr_exact (M m : positive) (j e : Z) :
  0 <= j -> Z.pos M = Z.pos m * 2 ^ j ->
  shr (Build_shr_record (Z.pos M) false false) e j
  = (Build_shr_record (Z.pos m) false false, e + j).
Proof.
  intros Hj HM. destruct j as [| p | p]; simpl shr.
  - rewrite Z.add_0_r. simpl in HM. f_equal. f_equal. lia.
  - rewrite iter_pos_iter. rewrite <- iter_xO_pow2 in HM.
    injection HM as ->. now rewrite iter_shr_1_exact.
  - lia.
Qed.

Lemma fexp_normal (x : Z) :
  -1021 <= x -> fexp Number.prec Number.emax x = x - 53.
Proof. unfold fexp, emin, Number.prec, Number.emax. lia. Qed.

(** Rounding [m * 2^k] scaled by [2^(-k)], an integer of at most 53
    bits, is exact. *)
Lemma binary_round_aux_exact (s : bool) (M m : positive) (k : Z) :
  Z.pos M = Z.pos m * 2 ^ k ->
  Z.pos (digits2_pos m) <= 53 ->
  53 - Z.pos (digits2_pos m) <= k ->
  binary_round_aux Number.prec Number.emax s (Z.pos M) (- k) loc_Exact = Number.canon s m.
Proof.
  intros HM Hd Hk.
  set (d := Z.pos (digits2_pos m)) in *.
  assert (Hd1 : 1 <= d) by (unfold d; lia).
  assert (HdM : Z.pos (digits2_pos M) = d + k) by (apply digits2_mul_pow2; [lia | exact HM]).
  set (m' := Pos.shiftl m (Z.to_N (53 - d))).
  assert (Hm' : Z.pos m' = Z.pos m * 2 ^ (53 - d)) by (apply shiftl_pow2; lia).
  assert (Hdm' : Z.pos (digits2_pos m') = 53).
  { rewrite (digits2_mul_pow2 m' m (53 - d)); [fold d; lia | lia | exact Hm']. }
  unfold binary_round_aux, shr_fexp.
  simpl Zdigits2. rewrite HdM.
  rewrite fexp_normal by lia.
  change (shr_record_of_loc (Z.pos M) loc_Exact)
    with (Build_shr_record (Z.pos M) false false).
  rewrite (shr_exact M m' (d + k + - k - 53 - - k) (- k)).
  - cbn [shr_m loc_of_shr_record round_nearest_even shr_record_of_loc Zdigits2]. rewrite Hdm'. rewrite fexp_normal by lia.
    replace (53 + (- k + (d + k + - k - 53 - - k)) - 53 - (- k + (d + k + - k - 53 - - k))) with 0 by lia.
    simpl shr. simpl shr_m.
    replace (- k + (d + k + - k - 53 - - k)) with (d - 53) by lia.
    unfold Number.emax, Number.prec.
    destruct (Z.leb_spec (d - 53) (1024 - 53)); [reflexivity | lia].
  - lia.
  - rewrite Hm', HM. rewrite <- Z.mul_assoc, <- Z.pow_add_r by lia.
    f_equal. f_equal. lia.
Qed.

Lemma binary_round_exact (s : bool) (M m : positive) (k : Z) :
  0 <= k ->
  Z.pos M = Z.pos m * 2 ^ k ->
  Z.pos (digits2_pos m) <= 53 ->
  binary_round Number.prec Number.emax s M (- k) = Number.canon s m.
Proof.
  intros Hk HM Hd.
  set (d := Z.pos (digits2_pos m)) in *.
  assert (HdM : Z.pos (digits2_pos M) = d + k) by (apply digits2_mul_pow2; [lia | exact HM]).
  unfold binary_round. rewrite HdM. rewrite fexp_normal by lia.
  unfold shl_align.
  destruct (d + k + - k - 53 - - k) as [| p | p] eqn:Hsh.
  - apply binary_round_aux_exact; [exact HM | fold d; lia | fold d; lia].
  - apply binary_round_aux_exact; [exact HM | fold d; lia | fold d; lia].
  - replace (d + k + - k - 53) with (- (53 - d)) by lia.
    apply binary_round_aux_exact; [| fold d; lia | fold d; lia].
    rewrite iter_xO_pow2, HM, <- Z.mul_assoc, <- Z.pow_add_r by lia.
    f_equal. f_equal. lia.
Qed.


Lemma safe_digits (p : positive) : Z.pos p < 2 ^ 53 -> Z.pos (digits2_pos p) <= 53.
Proof.
  intros Hp. pose proof (digits2_lower p) as Hl.
  destruct (Z.le_gt_cases (Z.pos (digits2_pos p)) 53) as [|Hgt]; [assumption|].
  assert (2 ^ 53 <= 2 ^ (Z.pos (digits2_pos p) - 1)) by (apply Z.pow_le_mono_r; lia).
  lia.
Qed.

(** The shape of a canonical integer: a mantissa scaled by a
    non-positive exponent. *)
Lemma canon_shape (s : bool) (p : positive) :
  Z.pos p < 2 ^ 53 ->
  exists M e, Number.canon s p = S754_finite s M e /\ e <= 0 /\ Z.pos M = Z.pos p * 2 ^ (- e).
Proof.
  intros Hp. apply safe_digits in Hp.
  eexists _, _. split; [reflexivity|]. split; [lia|].
  rewrite shiftl_pow2 by lia. f_equal. f_equal. lia.
Qed.

Lemma of_Z_pos (p : positive) :
  Z.pos p < 2 ^ 53 -> Number.of_Z (Z.pos p) = Number.canon false p.
Proof.
  intros Hp. unfold Number.of_Z, binary_normalize.
  apply (binary_round_exact false p p 0); [lia | rewrite Z.pow_0_r; lia | now apply safe_digits].
Qed.

Lemma of_Z_neg (p : positive) :
  Z.pos p < 2 ^ 53 -> Number.of_Z (Z.neg p) = Number.canon true p.
Proof.
  intros Hp. unfold Number.of_Z, binary_normalize.
  apply (binary_round_exact true p p 0); [lia | rewrite Z.pow_0_r; lia | now apply safe_digits].
Qed.

(** Normalising a safe integer scaled by a power of two gives the
    number of that integer. *)
Lemma binary_normalize_exact (n k : Z) :
  0 <= k -> Number.safe n ->
  binary_normalize Number.prec Number.emax (n * 2 ^ k) (- k) false = Number.of_Z n.
Proof.
  intros Hk Hn. unfold Number.safe in Hn.
  assert (Hpow : 0 < 2 ^ k) by (apply Z.pow_pos_nonneg; lia).
  destruct n as [| p | p].
  - reflexivity.
  - rewrite of_Z_pos by lia.
    destruct (Z.pos p * 2 ^ k) as [| Q | Q] eqn:HQ; [nia | | nia].
    simpl binary_normalize. apply binary_round_exact; [lia | lia | apply safe_digits; lia].
  - rewrite of_Z_neg by lia.
    destruct (Z.neg p * 2 ^ k) as [| Q | Q] eqn:HQ; [nia | nia |].
    simpl binary_normalize. apply binary_round_exact; [lia | lia | apply safe_digits; lia].
Qed.

Lemma shl_align_fst (M : positive) (e ez : Z) :
  ez <= e -> Z.pos (fst (shl_align M e ez)) = Z.pos M * 2 ^ (e - ez).
Proof.
  intros He. unfold shl_align.
  destruct (ez - e) as [| d | d] eqn:Hd; simpl fst.
  - replace (e - ez) with 0 by lia. rewrite Z.pow_0_r. lia.
  - lia.
  - rewrite iter_xO_pow2. f_equal. f_equal. lia.
Qed.

(** The number of a safe integer, seen as a signed mantissa and an
    exponent. *)
Lemma of_Z_shape (n : Z) :
  Number.safe n -> n <> 0 ->
  exists s M e, Number.of_Z n = S754_finite s M e /\ e <= 0 /\
                cond_Zopp s (Z.pos M) = n * 2 ^ (- e).
Proof.
  intros Hn Hn0. unfold Number.safe in Hn. destruct n as [| p | p]; [congruence | |].
  - destruct (canon_shape false p) as (M & e & HM & He & HMe); [lia|].
    exists false, M, e. rewrite of_Z_pos by lia. repeat split; simpl; assumption.
  - destruct (canon_shape true p) as (M & e & HM & He & HMe); [lia|].
    exists true, M, e. rewrite of_Z_neg by lia. repeat split; [assumption.. |].
    simpl. change (Z.neg M) with (- Z.pos M). change (Z.neg p) with (- Z.pos p).
    rewrite HMe. lia.
Qed.

(** Addition of safe integers with a safe sum is exact. *)
Lemma add_of_Z (a b : Z) :
  Number.safe a -> Number.safe b -> Number.safe (a + b) ->
  Number.add (Number.of_Z a) (Number.of_Z b) = Number.of_Z (a + b).
Proof.
  intros Ha Hb Hab.
  destruct (Z.eq_dec a 0) as [-> | Ha0].
  { destruct (Z.eq_dec b 0) as [-> | Hb0]; [reflexivity|].
    rewrite Z.add_0_l.
    destruct (of_Z_shape b Hb Hb0) as (s & M & e & -> & _). reflexivity. }
  destruct (Z.eq_dec b 0) as [-> | Hb0].
  { rewrite Z.add_0_r. destruct (of_Z_shape a Ha Ha0) as (s & M & e & -> & _). reflexivity. }
  destruct (of_Z_shape a Ha Ha0) as (sa & Ma & ea & -> & Hea & HMa).
  destruct (of_Z_shape b Hb Hb0) as (sb & Mb & eb & -> & Heb & HMb).
  unfold Number.add, SFadd.
  set (ez := Z.min ea eb).
  assert (Hez : ez <= 0) by (unfold ez; lia).
  replace ez with (- (- ez)) at 3 by lia.
  rewrite <- (binary_normalize_exact (a + b) (- ez)) by (assumption || lia).
  f_equal.
  assert (Hsh : forall s M e n, ez <= e -> e <= 0 -> cond_Zopp s (Z.pos M) = n * 2 ^ (- e) ->
                cond_Zopp s (Z.pos (fst (shl_align M e ez))) = n * 2 ^ (- ez)).
  { intros s M e n H1 H2 H3. rewrite shl_align_fst by assumption.
    replace (- ez) with (- e + (e - ez)) by lia. rewrite Z.pow_add_r by lia.
    rewrite Z.mul_assoc, <- H3. destruct s; simpl; lia. }
  rewrite (Hsh sa Ma ea a), (Hsh sb Mb eb b) by (assumption || (unfold ez; lia)).
  lia.
Qed.


Lemma of_Z_sign_mag (n : Z) :
  Number.safe n -> Number.of_Z n = Number.sign_mag (n <? 0) (Z.abs_N n).
Proof.
  intros Hn. unfold Number.safe in Hn. destruct n as [| p | p]; simpl.
  - reflexivity.
  - apply of_Z_pos. lia.
  - apply of_Z_neg. lia.
Qed.

Lemma digits2_mul_lower (p q : positive) :
  Z.pos (digits2_pos p) + Z.pos (digits2_pos q) - 1 <= Z.pos (digits2_pos (p * q)).
Proof.
  pose proof (digits2_lower p) as Hp. pose proof (digits2_lower q) as Hq.
  pose proof (digits2_upper (p * q)) as Hpq.
  set (dp := Z.pos (digits2_pos p)) in *. set (dq := Z.pos (digits2_pos q)) in *.
  set (d := Z.pos (digits2_pos (p * q))) in *.
  assert (1 <= dp /\ 1 <= dq) as [? ?] by (unfold dp, dq; lia).
  destruct (Z.le_gt_cases (dp + dq - 1) d) as [|Hgt]; [assumption|].
  assert (2 ^ d <= 2 ^ ((dp - 1) + (dq - 1))) by (apply Z.pow_le_mono_r; lia).
  rewrite Z.pow_add_r in * by lia.
  assert (0 < 2 ^ (dp - 1)) by (apply Z.pow_pos_nonneg; lia).
  assert (0 < 2 ^ (dq - 1)) by (apply Z.pow_pos_nonneg; lia).
  rewrite Pos2Z.inj_mul in Hpq. nia.
Qed.

(** Multiplication of magnitudes with a product below [2^53] is exact;
    the sign is the exclusive or of the signs, also on zeros. *)
Lemma mul_sign_mag (s1 s2 : bool) (n1 n2 : N) :
  Z.of_N (n1 * n2) < 2 ^ 53 ->
  Number.mul (Number.sign_mag s1 n1) (Number.sign_mag s2 n2) = Number.sign_mag (xorb s1 s2) (n1 * n2).
Proof.
  intros H. destruct n1 as [| p1], n2 as [| p2]; try reflexivity.
  simpl N.mul in *. simpl Z.of_N in H. rewrite Pos2Z.inj_mul in H.
  assert (Hp1 : Z.pos p1 < 2 ^ 53) by nia.
  assert (Hp2 : Z.pos p2 < 2 ^ 53) by nia.
  apply safe_digits in Hp1, Hp2.
  pose proof (digits2_mul_lower p1 p2) as Hlow.
  assert (Hd : Z.pos (digits2_pos (p1 * p2)) <= 53)
    by (apply safe_digits; rewrite Pos2Z.inj_mul; exact H).
  unfold Number.sign_mag, Number.mul. unfold Number.canon at 1 2. unfold SFmul.
  set (d1 := Z.pos (digits2_pos p1)) in *. set (d2 := Z.pos (digits2_pos p2)) in *.
  replace (d1 - 53 + (d2 - 53)) with (- ((53 - d1) + (53 - d2))) by lia.
  apply binary_round_aux_exact; [| assumption | lia].
  rewrite !Pos2Z.inj_mul, !shiftl_pow2, Z.pow_add_r by lia. lia.
Qed.

Lemma safe_mul_abs_N (a b : Z) :
  Number.safe (a * b) -> Z.of_N (Z.abs_N a * Z.abs_N b) < 2 ^ 53.
Proof.
  unfold Number.safe. rewrite <- Zabs2N.inj_mul, N2Z.inj_abs_N. trivial.
Qed.


(** ** Results that are not negative *)

Lemma shr_1_nonneg (r : shr_record) : 0 <= shr_m r -> 0 <= shr_m (shr_1 r).
Proof.
  destruct r as [m r s]. simpl shr_m at 1. intros Hm.
  destruct m as [| [p | p |] | p]; simpl; lia.
Qed.

Lemma shr_nonneg (r : shr_record) (e n : Z) :
  0 <= shr_m r -> 0 <= shr_m (fst (shr r e n)).
Proof.
  intros Hr. destruct n as [| p | p]; simpl; try assumption.
  rewrite iter_pos_iter.
  apply (Pos.iter_invariant p _ shr_1 (fun r => 0 <= shr_m r)); [exact shr_1_nonneg | exact Hr].
Qed.

Lemma shr_record_of_loc_m (m : Z) (l : location) : shr_m (shr_record_of_loc m l) = m.
Proof. destruct l as [| []]; reflexivity. Qed.

Lemma round_nearest_even_nonneg (m : Z) (l : location) :
  0 <= m -> 0 <= round_nearest_even m l.
Proof.
  intros Hm. destruct l as [| []]; simpl; try lia.
  destruct (Z.even m); lia.
Qed.

Lemma binary_round_aux_nonneg (m e : Z) (l : location) :
  0 <= m -> Number.nonneg_shape (binary_round_aux Number.prec Number.emax false m e l).
Proof.
  intros Hm. unfold binary_round_aux, shr_fexp.
  pose proof (shr_nonneg (shr_record_of_loc m l) e
                (fexp Number.prec Number.emax (Zdigits2 m + e) - e)) as H1.
  rewrite shr_record_of_loc_m in H1. specialize (H1 Hm).
  destruct (shr (shr_record_of_loc m l) e _) as [mrs' e']. simpl fst in H1.
  pose proof (round_nearest_even_nonneg (shr_m mrs') (loc_of_shr_record mrs') H1) as H2.
  set (m2 := round_nearest_even (shr_m mrs') (loc_of_shr_record mrs')) in *.
  pose proof (shr_nonneg (shr_record_of_loc m2 loc_Exact) e'
                (fexp Number.prec Number.emax (Zdigits2 m2 + e') - e') H2) as H3.
  destruct (shr (shr_record_of_loc m2 loc_Exact) e' _) as [mrs'' e'']. simpl fst in H3.
  destruct (shr_m mrs'') as [| q | q]; simpl; [trivial | | lia].
  destruct (e'' <=? Number.emax - Number.prec); simpl; trivial.
Qed.

(** The number of a natural number is never NaN nor negative, whatever
    its size. *)
Lemma of_nat_nonneg (n : nat) : Number.nonneg_shape (Number.of_nat n).
Proof.
  unfold Number.of_nat, Number.of_Z, binary_normalize.
  destruct (Z.of_nat n) as [| p | p] eqn:Hn; [exact I | | lia].
  unfold binary_round. destruct (shl_align _ _ _) as [mz ez].
  apply binary_round_aux_nonneg. lia.
Qed.

Lemma lt_zero_nonneg (x : number) :
  Number.nonneg_shape x -> Number.lt x (Number.of_Z 0) = false.
Proof. destruct x as [[] | [] | | [] m e]; simpl; intros H; (reflexivity || destruct H). Qed.

(** ** Comparisons *)

Lemma SFcompare_antisym (x y : number) :
  SFcompare y x = option_map CompOpp (SFcompare x y).
Proof.
  destruct x as [sx | sx | | sx mx ex], y as [sy | sy | | sy my ey];
    try reflexivity; try (destruct sx; reflexivity); try (destruct sy; reflexivity);
    try (destruct sx, sy; reflexivity).
  simpl. f_equal.
  change (Pos.compare_cont Eq my mx) with (Pos.compare my mx).
  change (Pos.compare_cont Eq mx my) with (Pos.compare mx my).
  rewrite (Z.compare_antisym ex ey), (Pos.compare_antisym mx my).
  destruct sx, sy; try reflexivity; destruct (ex ?= ey); simpl;
    reflexivity || apply CompOpp_involutive.
Qed.

(** [x <= y] excludes [y < x]. *)
Lemma le_not_lt (x y : number) : Number.le x y = true -> Number.lt y x = false.
Proof.
  unfold Number.le, Number.lt, SFleb, SFltb. rewrite (SFcompare_antisym x y).
  destruct (SFcompare x y) as [[] |]; simpl; congruence.
Qed.

(** [x === x] holds for every number but NaN. *)
Lemma strict_eq_refl (x : number) : Number.is_NaN x = false -> Number.strict_eq x x = true.
Proof.
  unfold Number.strict_eq, SFeqb. destruct x as [s | s | | s m e]; simpl; try congruence.
  - intros _. now destruct s.
  - intros _. change (Pos.compare_cont Eq m m) with (Pos.compare m m).
    rewrite Z.compare_refl, Pos.compare_refl. now destruct s.
Qed.

End FloatFacts.

(* ===================================================================== *)
(** * Facts about the heap *)
(* ===================================================================== *)

Section HeapFacts.
Context {O : Type}.
Implicit Types (h : gmap loc O) (l : loc) (o : O).

Lemma run_ret {A} (a : A) h : (mret a : M O A) h = Some (Normal a, h).
Proof. reflexivity. Qed.

Lemma run_bind {A B} (c : M O A) (k : A -> M O B) h a h' :
  c h = Some (Normal a, h') -> (c ≫= k) h = k a h'.
Proof. intros H. unfold mbind, M_bind, Heap.bind. now rewrite H. Qed.

Lemma run_bind_throw {A B} (c : M O A) (k : A -> M O B) h e h' :
  c h = Some (Throw e, h') -> (c ≫= k) h = Some (Throw e, h').
Proof. intros H. unfold mbind, M_bind, Heap.bind. now rewrite H. Qed.

Lemma run_read h l o : h !! l = Some o -> read l h = Some (Normal o, h).
Proof. intros H. unfold read. now rewrite H. Qed.

Lemma run_alloc h o : alloc o h = Some (Normal (fresh (dom h)), <[fresh (dom h) := o]> h).
Proof. reflexivity. Qed.

(** The location of a new object holds nothing before. *)
Lemma fresh_unused h : h !! fresh (dom h) = None.
Proof. apply not_elem_of_dom, is_fresh. Qed.

(** Building an object leaves every object already there as it is. *)
Lemma alloc_preserves h o l o' :
  h !! l = Some o' -> <[fresh (dom h) := o]> h !! l = Some o'.
Proof.
  intros H. rewrite lookup_insert_ne; [exact H|].
  intros <-. rewrite fresh_unused in H. discriminate.
Qed.
End HeapFacts.

(* ===================================================================== *)
(** * password.ts: validation *)
(* ===================================================================== *)

Section ValidateFacts.
Import Password PasswordErrors.
Implicit Types (h : gmap loc Password) (password : loc) (p : Password).

(** The three ways out of [validate], by the two tests of the source. *)
Lemma validate_run spec h password p :
  h !! password = Some p ->
  validate spec password h =
    if Number.lt (JsString.length_of (value p)) (minLength_of spec) then
      Some (Normal (E.left (MinLengthValidationError (minLength_of spec))), h)
    else if capitalLetterRequired_of spec && negb (JsString.test_A_Z (value p)) then
      Some (Normal (E.left CapitalLetterMissingValidationError), h)
    else
      Some (Normal (E.right (fresh (dom h))), <[fresh (dom h) := validated p]> h).
Proof.
  intros Hp. unfold validate.
  rewrite (run_bind _ _ h p h (run_read h password p Hp)).
  destruct (Number.lt _ _); [reflexivity|].
  rewrite (run_bind _ _ h p h (run_read h password p Hp)).
  destruct (_ && _); [reflexivity|].
  rewrite (run_bind _ _ h p h (run_read h password p Hp)).
  reflexivity.
Qed.

Lemma test_A_Z_false (s : jsstring) :
  (forall c, In c s -> JsString.is_A_Z c = false) -> JsString.test_A_Z s = false.
Proof.
  intros H. unfold JsString.test_A_Z.
  destruct (existsb JsString.is_A_Z s) eqn:E; [|reflexivity].
  apply existsb_exists in E as (c & Hc & Hu). rewrite (H c Hc) in Hu. discriminate.
Qed.

Lemma test_A_Z_true (s : jsstring) :
  (exists c, In c s /\ JsString.is_A_Z c = true) -> JsString.test_A_Z s = true.
Proof. intros H. now apply existsb_exists. Qed.

(** C1. A password shorter than the minimal length of the specification
    is rejected with the min-length error carrying that minimal length,
    whatever its characters and whatever [capitalLetterRequired] says;
    nothing is built. *)
Theorem validate_min_length_first spec h password p :
  h !! password = Some p ->
  Number.lt (JsString.length_of (value p)) (minLength_of spec) = true ->
  validate spec password h
  = Some (Normal (E.left (MinLengthValidationError (minLength_of spec))), h).
Proof. intros Hp Hlt. rewrite (validate_run spec h password p Hp), Hlt. reflexivity. Qed.

(** C2. A password at least as long as the minimal length, and with a
    letter in A-Z when one is required, is accepted: the result is a
    success holding a new object with the [value] and [isHashed] of the
    password (and [isValidated] set), and the password itself is as it
    was. *)
Theorem validate_accepts spec h password p :
  h !! password = Some p ->
  Number.le (minLength_of spec) (JsString.length_of (value p)) = true ->
  (capitalLetterRequired_of spec = true ->
   exists c, In c (value p) /\ JsString.is_A_Z c = true) ->
  exists l h' p',
    validate spec password h = Some (Normal (E.right l), h') /\
    h !! l = None /\
    h' !! l = Some p' /\
    value p' = value p /\ isHashed p' = isHashed p /\ _tag p' = _tag p /\
    h' !! password = Some p.
Proof.
  intros Hp Hle Hcap.
  exists (fresh (dom h)), (<[fresh (dom h) := validated p]> h), (validated p).
  rewrite (validate_run spec h password p Hp), (le_not_lt _ _ Hle).
  assert (capitalLetterRequired_of spec && negb (JsString.test_A_Z (value p)) = false) as ->.
  { destruct (capitalLetterRequired_of spec); [|reflexivity].
    rewrite (test_A_Z_true _ (Hcap eq_refl)). reflexivity. }
  split; [reflexivity|]. split; [apply fresh_unused|].
  split; [apply lookup_insert_eq|]. repeat split.
  now apply alloc_preserves.
Qed.

(** C3. A password at least as long as the minimal length, with no code
    unit in A-Z, is rejected with the capital-letter error when a capital
    letter is required. *)
Theorem validate_capital_letter_missing spec h password p :
  h !! password = Some p ->
  Number.le (minLength_of spec) (JsString.length_of (value p)) = true ->
  capitalLetterRequired_of spec = true ->
  (forall c, In c (value p) -> JsString.is_A_Z c = false) ->
  validate spec password h
  = Some (Normal (E.left CapitalLetterMissingValidationError), h).
Proof.
  intros Hp Hle Hcap Hno.
  rewrite (validate_run spec h password p Hp), (le_not_lt _ _ Hle), Hcap,
    (test_A_Z_false _ Hno).
  reflexivity.
Qed.

(** C6. The specification is optional and so are its fields; the
    defaults are 0 and false. With no specification, or with the empty
    one, every password is accepted. *)
Theorem validate_defaults h password p :
  h !! password = Some p ->
  minLength_of None = Number.of_Z 0 /\
  capitalLetterRequired_of None = false /\
  (forall c, minLength_of (Some {| minLength := None; capitalLetterRequired := c |})
             = Number.of_Z 0) /\
  (forall m, capitalLetterRequired_of (Some {| minLength := m; capitalLetterRequired := None |})
             = false) /\
  exists l h',
    validate None password h = Some (Normal (E.right l), h') /\
    validate (Some empty_spec) password h = Some (Normal (E.right l), h') /\
    h' !! l = Some (validated p).
Proof.
  intros Hp. repeat (split; [reflexivity|]).
  exists (fresh (dom h)), (<[fresh (dom h) := validated p]> h).
  rewrite !(validate_run _ h password p Hp).
  change (minLength_of None) with (Number.of_Z 0).
  change (minLength_of (Some empty_spec)) with (Number.of_Z 0).
  unfold JsString.length_of. rewrite (lt_zero_nonneg _ (of_nat_nonneg _)).
  repeat split. apply lookup_insert_eq.
Qed.
End ValidateFacts.

(* ===================================================================== *)
(** * password.ts: hashing *)
(* ===================================================================== *)

Section HashFacts.
Import Password PasswordErrors.
Implicit Types (h : gmap loc Password) (password : loc) (p : Password).

(** [hash] ends as the hash function does: a throw goes through, a
    failure is handed back, a success is wrapped in a new object. *)
Lemma hash_run (hashFn : HashFn) h password p :
  h !! password = Some p ->
  hash hashFn password h =
    match hashFn (value p) with
    | Throw e => Some (Throw e, h)
    | Normal (E.left e) => Some (Normal (E.left e), h)
    | Normal (E.right v) =>
        Some (Normal (E.right (fresh (dom h))), <[fresh (dom h) := hashed p v]> h)
    end.
Proof.
  intros Hp. unfold hash, Fn.pipe2.
  rewrite (run_bind _ _ h p h (run_read h password p Hp)).
  destruct (hashFn (value p)) as [[e | v] | e].
  - reflexivity.
  - rewrite (run_bind _ _ h (E.right v) h eq_refl). unfold E.map.
    erewrite run_bind; [reflexivity|].
    rewrite (run_bind _ _ h p h (run_read h password p Hp)). apply run_alloc.
  - reflexivity.
Qed.

(** C4. When the hash function succeeds on the value of the password,
    [hash] succeeds with a new object whose [value] is the string the
    hash function produced and whose [isHashed] is true. *)
Theorem hash_success (hashFn : HashFn) h password p v :
  h !! password = Some p ->
  hashFn (value p) = Normal (E.right v) ->
  exists l h' p',
    hash hashFn password h = Some (Normal (E.right l), h') /\
    h !! l = None /\
    h' !! l = Some p' /\
    value p' = v /\ isHashed p' = true.
Proof.
  intros Hp Hv.
  exists (fresh (dom h)), (<[fresh (dom h) := hashed p v]> h), (hashed p v).
  rewrite (hash_run hashFn h password p Hp), Hv.
  split; [reflexivity|]. split; [apply fresh_unused|].
  split; [apply lookup_insert_eq|]. split; reflexivity.
Qed.

(** C5. When the hash function fails on the value of the password,
    [hash] returns that very failure and the heap is the one it started
    from: the password read afterwards is the password read before. *)
Theorem hash_failure (hashFn : HashFn) h password p e :
  h !! password = Some p ->
  hashFn (value p) = Normal (E.left e) ->
  exists h',
    hash hashFn password h = Some (Normal (E.left e), h') /\
    h' !! password = Some p /\
    h' = h.
Proof.
  intros Hp He. exists h.
  rewrite (hash_run hashFn h password p Hp), He. repeat split. exact Hp.
Qed.

(** C7. [validate] always returns, and its result is a success or one of
    the two validation errors; [hash] returns whenever the hash function
    returns, with the error of the hash function when that one fails and
    with a success when it succeeds. No call ends in a throw. *)
Theorem validate_hash_never_throw spec (hashFn : HashFn) h password p r :
  h !! password = Some p ->
  hashFn (value p) = Normal r ->
  (exists r' h', validate spec password h = Some (Normal r', h') /\
     match r' with
     | E.left (MinLengthValidationError m) => m = minLength_of spec
     | E.left CapitalLetterMissingValidationError => True
     | E.right l => h' !! l = Some (validated p)
     end) /\
  (exists r' h', hash hashFn password h = Some (Normal r', h') /\
     match r with
     | E.left e => r' = E.left e
     | E.right v => exists l, r' = E.right l /\ h' !! l = Some (hashed p v)
     end).
Proof.
  intros Hp Hr. split.
  - rewrite (validate_run spec h password p Hp).
    destruct (Number.lt _ _); [eexists _, _; split; [reflexivity | reflexivity] |].
    destruct (_ && _); [eexists _, _; split; [reflexivity | exact I] |].
    eexists _, _; split; [reflexivity | apply lookup_insert_eq].
  - rewrite (hash_run hashFn h password p Hp), Hr. destruct r as [e | v].
    + eexists _, _; split; reflexivity.
    + eexists _, _; split; [reflexivity|]. eexists; split; [reflexivity | apply lookup_insert_eq].
Qed.

(** A hash function that throws makes [hash] throw: the model does not
    hide throws. *)
Lemma hash_throws (hashFn : HashFn) h password p e :
  h !! password = Some p ->
  hashFn (value p) = Throw e ->
  hash hashFn password h = Some (Throw e, h).
Proof. intros Hp He. now rewrite (hash_run hashFn h password p Hp), He. Qed.
End HashFacts.

(* ===================================================================== *)
(** * password.ts: the theorems at sample inputs *)
(* ===================================================================== *)

Section PasswordRuns.
Import Password PasswordErrors Samples.

(** ["23456"], the input of the pipeline, is too short for [spec8]. *)
Lemma validate_min_length_first_witness :
  heap_of "23456" !! 1%positive = Some (pw "23456") /\
  Number.lt (JsString.length_of (value (pw "23456"))) (minLength_of spec8) = true /\
  validate spec8 1%positive (heap_of "23456")
  = Some (Normal (E.left (MinLengthValidationError (Number.of_Z 8))), heap_of "23456").
Proof.
  split; [reflexivity|]. split; [reflexivity|].
  apply (validate_min_length_first spec8 (heap_of "23456") 1%positive (pw "23456"));
    reflexivity.
Defined.

Lemma validate_accepts_witness :
  heap_of "Passw0rd!" !! 1%positive = Some (pw "Passw0rd!") /\
  exists l h' p',
    validate spec8 1%positive (heap_of "Passw0rd!") = Some (Normal (E.right l), h') /\
    heap_of "Passw0rd!" !! l = None /\
    h' !! l = Some p' /\
    value p' = JsString.str "Passw0rd!" /\ isHashed p' = false /\ _tag p' = TagPassword /\
    h' !! 1%positive = Some (pw "Passw0rd!").
Proof.
  split; [reflexivity|].
  apply (validate_accepts spec8 (heap_of "Passw0rd!") 1%positive (pw "Passw0rd!")).
  - reflexivity.
  - reflexivity.
  - intros _. exists 80%N. split; [simpl; tauto | reflexivity].
Defined.

Lemma validate_capital_letter_missing_witness :
  heap_of "password" !! 1%positive = Some (pw "password") /\
  validate spec8 1%positive (heap_of "password")
  = Some (Normal (E.left CapitalLetterMissingValidationError), heap_of "password").
Proof.
  split; [reflexivity|].
  apply (validate_capital_letter_missing spec8 (heap_of "password") 1%positive (pw "password")).
  - reflexivity.
  - reflexivity.
  - reflexivity.
  - intros c Hc. simpl in Hc.
    repeat (destruct Hc as [<- | Hc]; [reflexivity|]). destruct Hc.
Defined.

Lemma validate_defaults_witness :
  heap_of "" !! 1%positive = Some (pw "") /\
  exists l h',
    validate None 1%positive (heap_of "") = Some (Normal (E.right l), h') /\
    validate (Some empty_spec) 1%positive (heap_of "") = Some (Normal (E.right l), h') /\
    h' !! l = Some (validated (pw "")).
Proof.
  split; [reflexivity|].
  apply (validate_defaults (heap_of "") 1%positive (pw "")). reflexivity.
Defined.

Lemma hash_success_witness :
  heap_of "Passw0rd!" !! 1%positive = Some (pw "Passw0rd!") /\
  hash_ok (value (pw "Passw0rd!")) = Normal (E.right (JsString.str "HASHPassw0rd!HASH")) /\
  exists l h' p',
    hash hash_ok 1%positive (heap_of "Passw0rd!") = Some (Normal (E.right l), h') /\
    heap_of "Passw0rd!" !! l = None /\
    h' !! l = Some p' /\
    value p' = JsString.str "HASHPassw0rd!HASH" /\ isHashed p' = true.
Proof.
  split; [reflexivity|]. split; [reflexivity|].
  apply (hash_success hash_ok (heap_of "Passw0rd!") 1%positive (pw "Passw0rd!"));
    reflexivity.
Defined.

Lemma hash_failure_witness :
  heap_of "Passw0rd!" !! 1%positive = Some (pw "Passw0rd!") /\
  hash_ko (value (pw "Passw0rd!")) = Normal (E.left {| message := JsString.str "no entropy" |}) /\
  exists h',
    hash hash_ko 1%positive (heap_of "Passw0rd!")
    = Some (Normal (E.left {| message := JsString.str "no entropy" |}), h') /\
    h' !! 1%positive = Some (pw "Passw0rd!") /\
    h' = heap_of "Passw0rd!".
Proof.
  split; [reflexivity|]. split; [reflexivity|].
  apply (hash_failure hash_ko (heap_of "Passw0rd!") 1%positive (pw "Passw0rd!"));
    reflexivity.
Defined.

Lemma validate_hash_never_throw_witness :
  heap_of "23456" !! 1%positive = Some (pw "23456") /\
  hash_ko (value (pw "23456")) = Normal (E.left {| message := JsString.str "no entropy" |}) /\
  (exists r' h', validate spec8 1%positive (heap_of "23456") = Some (Normal r', h') /\
     match r' with
     | E.left (MinLengthValidationError m) => m = minLength_of spec8
     | E.left CapitalLetterMissingValidationError => True
     | E.right l => h' !! l = Some (validated (pw "23456"))
     end) /\
  (exists r' h', hash hash_ko 1%positive (heap_of "23456") = Some (Normal r', h') /\
     r' = E.left {| message := JsString.str "no entropy" |}).
Proof.
  split; [reflexivity|]. split; [reflexivity|].
  apply (validate_hash_never_throw spec8 hash_ko (heap_of "23456") 1%positive (pw "23456")
           (E.left {| message := JsString.str "no entropy" |})); reflexivity.
Defined.

(** The pipeline of [task-and-either.ts],
    [flow(Password.of, Password.validate(spec8), E.chain(Password.hash(hashFn)))],
    on a password that passes. The two kinds of error are kept apart by
    [inl] and [inr]. *)
Example pipeline_accepts :
  (l ← of_ (JsString.str "Passw0rd!");
   r ← validate spec8 l;
   E.chain (fun l' => r' ← hash hash_ok l'; mret (E.mapLeft inr r')) (E.mapLeft inl r)) ∅
  = Some (Normal (E.right 3%positive),
          {[ 1%positive := pw "Passw0rd!";
             2%positive := validated (pw "Passw0rd!");
             3%positive := hashed (validated (pw "Passw0rd!"))
                             (JsString.str "HASHPassw0rd!HASH") ]}).
Proof. vm_compute. reflexivity. Qed.

(** The same pipeline on ["23456"], the input of the source. *)
Example pipeline_rejects :
  (l ← of_ (JsString.str "23456");
   r ← validate spec8 l;
   E.chain (fun l' => r' ← hash hash_ok l'; mret (E.mapLeft inr r')) (E.mapLeft inl r)) ∅
  = Some (Normal (E.left (inl (MinLengthValidationError (Number.of_Z 8)))),
          {[ 1%positive := pw "23456" ]}).
Proof. vm_compute. reflexivity. Qed.
End PasswordRuns.

(* ===================================================================== *)
(** * The semigroup example: associativity *)
(* ===================================================================== *)

Section SemigroupFacts.
Import Semigroup Samples.
Local Open Scope Z_scope.

Lemma sum_assoc_of_Z (a b c : Z) :
  Number.safe_sums a b c ->
  concat semigroupSum (concat semigroupSum (Number.of_Z a) (Number.of_Z b)) (Number.of_Z c)
  = concat semigroupSum (Number.of_Z a) (concat semigroupSum (Number.of_Z b) (Number.of_Z c)).
Proof.
  intros (Ha & Hb & Hc & Hab & Hbc & Habc). simpl.
  rewrite (add_of_Z a b), (add_of_Z b c), (add_of_Z (a + b) c) by assumption.
  rewrite (add_of_Z a (b + c)) by (assumption || now rewrite Z.add_assoc).
  now rewrite Z.add_assoc.
Qed.

Lemma product_assoc_of_Z (a b c : Z) :
  Number.safe_products a b c ->
  concat semigroupProduct (concat semigroupProduct (Number.of_Z a) (Number.of_Z b))
    (Number.of_Z c)
  = concat semigroupProduct (Number.of_Z a)
      (concat semigroupProduct (Number.of_Z b) (Number.of_Z c)).
Proof.
  intros (Ha & Hb & Hc & Hab & Hbc & Habc). simpl.
  rewrite !of_Z_sign_mag by assumption.
  rewrite (mul_sign_mag _ _ (Z.abs_N a) (Z.abs_N b)) by now apply safe_mul_abs_N.
  rewrite (mul_sign_mag _ _ (Z.abs_N b) (Z.abs_N c)) by now apply safe_mul_abs_N.
  rewrite !mul_sign_mag.
  - now rewrite xorb_assoc, N.mul_assoc.
  - rewrite N.mul_assoc, <- !Zabs2N.inj_mul, N2Z.inj_abs_N. exact Habc.
  - rewrite <- !Zabs2N.inj_mul, N2Z.inj_abs_N. exact Habc.
Qed.

(** C8, as the code has it. On safe integers whose sums stay safe in
    both groupings, [semigroupSum.concat] is associative; on safe
    integers whose products stay safe, [semigroupProduct.concat] is
    associative; on points with such integer coordinates,
    [semigroupPoint.concat] is associative. *)
Theorem concat_associative_on_safe_integers (a b c a' b' c' : Z) :
  (Number.safe_sums a b c ->
   concat semigroupSum (concat semigroupSum (Number.of_Z a) (Number.of_Z b)) (Number.of_Z c)
   = concat semigroupSum (Number.of_Z a)
       (concat semigroupSum (Number.of_Z b) (Number.of_Z c))) /\
  (Number.safe_products a b c ->
   concat semigroupProduct (concat semigroupProduct (Number.of_Z a) (Number.of_Z b))
     (Number.of_Z c)
   = concat semigroupProduct (Number.of_Z a)
       (concat semigroupProduct (Number.of_Z b) (Number.of_Z c))) /\
  (Number.safe_sums a b c -> Number.safe_sums a' b' c' ->
   concat semigroupPoint (concat semigroupPoint (point_of_Z a a') (point_of_Z b b'))
     (point_of_Z c c')
   = concat semigroupPoint (point_of_Z a a')
       (concat semigroupPoint (point_of_Z b b') (point_of_Z c c'))).
Proof.
  split; [exact (sum_assoc_of_Z a b c)|]. split; [exact (product_assoc_of_Z a b c)|].
  intros H H'. pose proof (sum_assoc_of_Z a b c H) as E. pose proof (sum_assoc_of_Z a' b' c' H') as E'.
  unfold point_of_Z. cbn [concat semigroupPoint x y] in *. now rewrite E, E'.
Qed.

Lemma safe_small (n : Z) : Z.abs n < 1000 -> Number.safe n.
Proof. unfold Number.safe. intros H. eapply Z.lt_trans; [exact H | reflexivity]. Qed.

Lemma concat_associative_on_safe_integers_witness :
  Number.safe_sums 1 2 3 /\ Number.safe_products 1 2 3 /\ Number.safe_sums (-4) 5 (-1) /\
  concat semigroupSum (concat semigroupSum (Number.of_Z 1) (Number.of_Z 2)) (Number.of_Z 3)
  = concat semigroupSum (Number.of_Z 1) (concat semigroupSum (Number.of_Z 2) (Number.of_Z 3)) /\
  concat semigroupProduct (concat semigroupProduct (Number.of_Z 1) (Number.of_Z 2))
    (Number.of_Z 3)
  = concat semigroupProduct (Number.of_Z 1)
      (concat semigroupProduct (Number.of_Z 2) (Number.of_Z 3)) /\
  concat semigroupPoint (concat semigroupPoint (point_of_Z 1 (-4)) (point_of_Z 2 5))
    (point_of_Z 3 (-1))
  = concat semigroupPoint (point_of_Z 1 (-4))
      (concat semigroupPoint (point_of_Z 2 5) (point_of_Z 3 (-1))).
Proof.
  assert (H1 : Number.safe_sums 1 2 3) by (repeat split; apply safe_small; simpl; lia).
  assert (H2 : Number.safe_products 1 2 3) by (repeat split; apply safe_small; simpl; lia).
  assert (H3 : Number.safe_sums (-4) 5 (-1)) by (repeat split; apply safe_small; simpl; lia).
  destruct (concat_associative_on_safe_integers 1 2 3 (-4) 5 (-1)) as (Hs & Hp & Hpt).
  repeat (split; [assumption|]).
  split; [exact (Hs H1)|]. split; [exact (Hp H2) | exact (Hpt H1 H3)].
Defined.

(** C8, as stated, fails. With the literals 0.1, 0.2 and 0.3 the two
    groupings of the sum differ (0.6000000000000001 and 0.6) and so do
    those of the product; with the integers 2^53, 1 and 1 the two
    groupings of the sum differ as well. The results are different
    numbers, not two representations of one. *)
Lemma concat_not_associative :
  Number.is_number lit_0_1 = true /\ Number.is_number lit_0_2 = true /\
  Number.is_number lit_0_3 = true /\
  concat semigroupSum (concat semigroupSum lit_0_1 lit_0_2) lit_0_3
  <> concat semigroupSum lit_0_1 (concat semigroupSum lit_0_2 lit_0_3) /\
  Number.strict_eq
    (concat semigroupSum (concat semigroupSum lit_0_1 lit_0_2) lit_0_3)
    (concat semigroupSum lit_0_1 (concat semigroupSum lit_0_2 lit_0_3)) = false /\
  Number.strict_eq
    (concat semigroupProduct (concat semigroupProduct lit_0_1 lit_0_2) lit_0_3)
    (concat semigroupProduct lit_0_1 (concat semigroupProduct lit_0_2 lit_0_3)) = false /\
  Number.strict_eq
    (concat semigroupSum
       (concat semigroupSum (Number.of_Z (2 ^ 53)) (Number.of_Z 1)) (Number.of_Z 1))
    (concat semigroupSum
       (Number.of_Z (2 ^ 53)) (concat semigroupSum (Number.of_Z 1) (Number.of_Z 1))) = false /\
  concat semigroupPoint
    (concat semigroupPoint (mkPoint lit_0_1 lit_0_1) (mkPoint lit_0_2 lit_0_2))
    (mkPoint lit_0_3 lit_0_3)
  <> concat semigroupPoint (mkPoint lit_0_1 lit_0_1)
       (concat semigroupPoint (mkPoint lit_0_2 lit_0_2) (mkPoint lit_0_3 lit_0_3)).
Proof.
  repeat (split; [vm_compute; (reflexivity || discriminate)|]).
  vm_compute; discriminate.
Qed.
End SemigroupFacts.

(* ===================================================================== *)
(** * pipe-and-flow.ts *)
(* ===================================================================== *)

Section BillFacts.
Import PipeAndFlow.

(** C9. The piped computation and the calculator built with [flow] give
    the same bill on every list of items. Its [beforeTax] is the sum of
    the items, added from the left starting at 0 (so 0 for no item), and
    its [afterTax] is [beforeTax] plus [Math.round(beforeTax * 0.15)]. *)
Theorem calculateBillTotal_billCalulator (items : list number) :
  calculateBillTotal items = billCalulator tt items /\
  beforeTax (calculateBillTotal items) = sumLineItems items /\
  afterTax (calculateBillTotal items)
  = Number.add (beforeTax (calculateBillTotal items))
      (Number.Math_round (Number.mul (beforeTax (calculateBillTotal items)) Number.lit_0_15)) /\
  sumLineItems [] = Number.of_Z 0 /\
  (forall item, sumLineItems (items ++ [item]) = Number.add (sumLineItems items) item).
Proof.
  repeat split. intros item. unfold sumLineItems. now rewrite fold_left_app.
Qed.

(** [Math.round] on halves and near zero: 2.5 gives 3, -2.5 gives -2,
    -0.25 gives -0 and -0.75 gives -1. *)
Example Math_round_halves :
  Number.Math_round (Number.div (Number.of_Z 5) (Number.of_Z 2)) = Number.of_Z 3 /\
  Number.Math_round (Number.div (Number.of_Z (-5)) (Number.of_Z 2)) = Number.of_Z (-2) /\
  Number.Math_round (Number.div (Number.of_Z (-1)) (Number.of_Z 4)) = S754_zero true /\
  Number.Math_round (Number.div (Number.of_Z (-3)) (Number.of_Z 4)) = Number.of_Z (-1).
Proof. repeat split; vm_compute; reflexivity. Qed.

(** Items 10 and 20: the tip is [Math.round(4.5)], that is 5. *)
Example bill_10_20 :
  calculateBillTotal [Number.of_Z 10; Number.of_Z 20]
  = {| beforeTax := Number.of_Z 30; afterTax := Number.of_Z 35 |}.
Proof. vm_compute. reflexivity. Qed.

Example bill_empty :
  billCalulator tt [] = {| beforeTax := Number.of_Z 0; afterTax := Number.of_Z 0 |}.
Proof. vm_compute. reflexivity. Qed.
End BillFacts.

(* ===================================================================== *)
(** * eq.ts: equality of users *)
(* ===================================================================== *)

Section EqFacts.
Import Eq Samples.
Implicit Types (h : gmap loc User) (l : loc) (u : User).

Lemma get_id_run h l u : h !! l = Some u -> get_id l h = Some (Normal (id u), h).
Proof. intros H. unfold get_id. now rewrite (run_bind _ _ h u h (run_read h l u H)). Qed.

(** What [eqUser.equals] computes: the shortcut of [fromEquals] on the
    two references, then [===] on the two ids. The heap is only read. *)
Lemma eqUser_run h l1 l2 u1 u2 :
  h !! l1 = Some u1 -> h !! l2 = Some u2 ->
  equals eqUser l1 l2 h
  = Some (Normal (Pos.eqb l1 l2 || Number.strict_eq (id u1) (id u2)), h).
Proof.
  intros H1 H2. unfold eqUser, contramap, fromEquals, equals, strict_equal, strict_equal_object.
  destruct (Pos.eqb l1 l2); [reflexivity|].
  rewrite (run_bind _ _ h (id u1) h (get_id_run h l1 u1 H1)).
  rewrite (run_bind _ _ h (id u2) h (get_id_run h l2 u2 H2)).
  reflexivity.
Qed.

(** C10, as the code has it. [eqUser.equals] holds exactly when its
    arguments are one object or their ids are [===]; so, when the id is
    not NaN, exactly when the ids are [===]. The names play no part:
    with other names under the same references and ids, the answer is
    the same. *)
Theorem eqUser_equals_by_id h l1 l2 u1 u2 :
  h !! l1 = Some u1 -> h !! l2 = Some u2 ->
  (equals eqUser l1 l2 h = Some (Normal true, h)
   <-> l1 = l2 \/ Number.strict_eq (id u1) (id u2) = true) /\
  (Number.is_NaN (id u1) = false ->
   (equals eqUser l1 l2 h = Some (Normal true, h)
    <-> Number.strict_eq (id u1) (id u2) = true)) /\
  (forall h' u1' u2',
     h' !! l1 = Some u1' -> h' !! l2 = Some u2' ->
     id u1' = id u1 -> id u2' = id u2 ->
     exists b, equals eqUser l1 l2 h = Some (Normal b, h) /\
               equals eqUser l1 l2 h' = Some (Normal b, h')).
Proof.
  intros H1 H2.
  assert (Hrun : equals eqUser l1 l2 h = Some (Normal true, h)
                 <-> l1 = l2 \/ Number.strict_eq (id u1) (id u2) = true).
  { rewrite (eqUser_run h l1 l2 u1 u2 H1 H2). split.
    - intros [= Hb]. apply orb_true_iff in Hb as [Hb | Hb]; [left; now apply Pos.eqb_eq | now right].
    - intros Hb. do 3 f_equal. apply orb_true_iff.
      destruct Hb as [Hb | Hb]; [left; now apply Pos.eqb_eq | now right]. }
  split; [exact Hrun|]. split.
  - intros Hnan. rewrite Hrun. split; [| now right].
    intros [-> | Hb]; [| exact Hb].
    rewrite H1 in H2. injection H2 as <-. now apply strict_eq_refl.
  - intros h' u1' u2' H1' H2' E1 E2.
    exists (Pos.eqb l1 l2 || Number.strict_eq (id u1) (id u2)).
    split; [now apply eqUser_run|].
    rewrite (eqUser_run h' l1 l2 u1' u2' H1' H2'), E1, E2. reflexivity.
Qed.

Lemma eqUser_equals_by_id_witness :
  ryans !! 1%positive = Some {| id := Number.of_Z 123; name := JsString.str "Ryan" |} /\
  ryans !! 2%positive = Some {| id := Number.of_Z 234; name := JsString.str "Ryan" |} /\
  (equals eqUser 1%positive 2%positive ryans = Some (Normal true, ryans)
   <-> Number.strict_eq (Number.of_Z 123) (Number.of_Z 234) = true).
Proof.
  split; [reflexivity|]. split; [reflexivity|].
  refine (proj1 (proj2 (eqUser_equals_by_id ryans 1%positive 2%positive
                          {| id := Number.of_Z 123; name := JsString.str "Ryan" |}
                          {| id := Number.of_Z 234; name := JsString.str "Ryan" |}
                          _ _)) _); reflexivity.
Defined.

(** The call at the end of [eq.ts] prints false. *)
Example eqUser_ryans :
  equals eqUser 1%positive 2%positive ryans = Some (Normal false, ryans).
Proof. vm_compute. reflexivity. Qed.

(** C10, as stated, fails. Two users with the same id, NaN, and the same
    name are not equal for [eqUser]: equal ids, answer false. And each of
    them is equal to itself although its id is not [===] to itself: the
    answer is true by the identity of the object, not by the id. *)
Lemma eqUser_nan_ids_differ :
  exists u1 u2,
    nan_users !! 1%positive = Some u1 /\ nan_users !! 2%positive = Some u2 /\
    id u1 = id u2 /\
    equals eqUser 1%positive 2%positive nan_users = Some (Normal false, nan_users) /\
    Number.strict_eq (id u1) (id u1) = false /\
    equals eqUser 1%positive 1%positive nan_users = Some (Normal true, nan_users).
Proof.
  exists {| id := Number.NaN; name := JsString.str "Ryan" |},
         {| id := Number.NaN; name := JsString.str "Ryan" |}.
  repeat split; vm_compute; reflexivity.
Qed.
End EqFacts.

(* ===================================================================== *)
(** * More facts about binary64 arithmetic *)
(* ===================================================================== *)

Section MoreFloatFacts.
Local Open Scope Z_scope.

(** ** Comparing the numbers of integers *)

Lemma canon_compare (p q : positive) :
  Z.pos p < 2 ^ 53 -> Z.pos q < 2 ^ 53 ->
  SFcompare (Number.canon false p) (Number.canon false q) = Some (Pos.compare p q) /\
  SFcompare (Number.canon true p) (Number.canon true q) = Some (CompOpp (Pos.compare p q)).
Proof.
  intros Hp Hq.
  pose proof (safe_digits p Hp) as Hdp. pose proof (safe_digits q Hq) as Hdq.
  pose proof (digits2_lower p) as Lp. pose proof (digits2_upper p) as Up.
  pose proof (digits2_lower q) as Lq. pose proof (digits2_upper q) as Uq.
  unfold Number.canon, SFcompare.
  set (dp := Z.pos (digits2_pos p)) in *. set (dq := Z.pos (digits2_pos q)) in *.
  change (Pos.compare_cont Eq ?a ?b) with (Pos.compare a b).
  assert (Hm : Pos.compare (Pos.shiftl p (Z.to_N (53 - dp))) (Pos.shiftl q (Z.to_N (53 - dq)))
               = Z.compare (Z.pos p * 2 ^ (53 - dp)) (Z.pos q * 2 ^ (53 - dq))).
  { rewrite <- !shiftl_pow2 by lia. reflexivity. }
  rewrite Hm.
  destruct (Z.compare_spec (dp - 53) (dq - 53)) as [He | He | He].
  - assert (dp = dq) as E by lia. rewrite <- E.
    assert (0 < 2 ^ (53 - dp)) by (apply Z.pow_pos_nonneg; lia).
    assert (Z.compare (Z.pos p * 2 ^ (53 - dp)) (Z.pos q * 2 ^ (53 - dp)) = Z.compare (Z.pos p) (Z.pos q)) as ->.
    { destruct (Z.compare_spec (Z.pos p) (Z.pos q)) as [E'|E'|E'].
      - rewrite E'. apply Z.compare_refl.
      - apply Z.compare_lt_iff. nia.
      - apply Z.compare_gt_iff. nia. }
    split; reflexivity.
  - assert (2 ^ dp <= 2 ^ (dq - 1)) by (apply Z.pow_le_mono_r; lia).
    assert (Pos.compare p q = Lt) as -> by (apply Pos.compare_lt_iff; lia).
    split; reflexivity.
  - assert (2 ^ dq <= 2 ^ (dp - 1)) by (apply Z.pow_le_mono_r; lia).
    assert (Pos.compare p q = Gt) as -> by (apply Pos.compare_gt_iff; lia).
    split; reflexivity.
Qed.

(** On safe integers the comparison of numbers is the comparison of
    integers. *)
Lemma SFcompare_of_Z (a b : Z) :
  Number.safe a -> Number.safe b ->
  SFcompare (Number.of_Z a) (Number.of_Z b) = Some (Z.compare a b).
Proof.
  unfold Number.safe. intros Ha Hb.
  destruct a as [| p | p], b as [| q | q];
    rewrite ?of_Z_pos, ?of_Z_neg by lia; try reflexivity.
  - apply (canon_compare p q); lia.
  - rewrite (proj2 (canon_compare p q ltac:(lia) ltac:(lia))). reflexivity.
Qed.

Lemma lt_of_Z (a b : Z) :
  Number.safe a -> Number.safe b -> Number.lt (Number.of_Z a) (Number.of_Z b) = (a <? b).
Proof.
  intros Ha Hb. unfold Number.lt, SFltb, Z.ltb. rewrite SFcompare_of_Z by assumption.
  destruct (a ?= b); reflexivity.
Qed.

Lemma le_of_Z (a b : Z) :
  Number.safe a -> Number.safe b -> Number.le (Number.of_Z a) (Number.of_Z b) = (a <=? b).
Proof.
  intros Ha Hb. unfold Number.le, SFleb, Z.leb. rewrite SFcompare_of_Z by assumption.
  destruct (a ?= b); reflexivity.
Qed.

Lemma strict_eq_of_Z (a b : Z) :
  Number.safe a -> Number.safe b -> Number.strict_eq (Number.of_Z a) (Number.of_Z b) = (a =? b).
Proof.
  intros Ha Hb. unfold Number.strict_eq, SFeqb. rewrite SFcompare_of_Z by assumption.
  destruct (Z.eqb_spec a b) as [-> | Hne].
  - now rewrite Z.compare_refl.
  - destruct (a ?= b) eqn:E; try reflexivity. apply Z.compare_eq in E. contradiction.
Qed.

(** ** Commutativity *)

Lemma add_comm (x y : number) : Number.add x y = Number.add y x.
Proof.
  destruct x as [sx | sx | | sx mx ex], y as [sy | sy | | sy my ey];
    try reflexivity; try (destruct sx, sy; reflexivity).
  unfold Number.add, SFadd. rewrite (Z.min_comm ey ex). f_equal. apply Z.add_comm.
Qed.

Lemma mul_comm (x y : number) : Number.mul x y = Number.mul y x.
Proof.
  destruct x as [sx | sx | | sx mx ex], y as [sy | sy | | sy my ey];
    try reflexivity; try (destruct sx, sy; reflexivity).
  unfold Number.mul, SFmul.
  now rewrite (xorb_comm sy sx), (Pos.mul_comm my mx), (Z.add_comm ey ex).
Qed.

(** ** The order of numbers *)

(** Two numbers compare unless one is NaN. *)
Lemma SFcompare_total (x y : number) :
  Number.is_NaN x = false -> Number.is_NaN y = false ->
  exists c, SFcompare x y = Some c.
Proof.
  destruct x as [sx | sx | | sx mx ex], y as [sy | sy | | sy my ey]; simpl;
    intros; try discriminate; eauto.
Qed.

Ltac compare_cases :=
  repeat match goal with
    | |- context [Z.compare ?a ?b] => destruct (Z.compare_spec a b)
    | H : context [Z.compare ?a ?b] |- _ => destruct (Z.compare_spec a b)
    | |- context [Pos.compare_cont Eq ?a ?b] =>
        change (Pos.compare_cont Eq a b) with (Pos.compare a b);
        destruct (Pos.compare_spec a b)
    | H : context [Pos.compare_cont Eq ?a ?b] |- _ =>
        change (Pos.compare_cont Eq a b) with (Pos.compare a b) in H;
        destruct (Pos.compare_spec a b)
    end.

(** [<=] is transitive. *)
Lemma SFcompare_le_trans (x y z : number) (c1 c2 : comparison) :
  SFcompare x y = Some c1 -> SFcompare y z = Some c2 ->
  c1 <> Gt -> c2 <> Gt ->
  exists c3, SFcompare x z = Some c3 /\ c3 <> Gt.
Proof.
  destruct x as [sx | sx | | sx mx ex], y as [sy | sy | | sy my ey],
           z as [sz | sz | | sz mz ez];
    try discriminate;
    try (destruct sx); try (destruct sy); try (destruct sz);
    cbn [SFcompare]; intros [= <-] [= <-] H1 H2;
    try congruence; try (eexists; split; [reflexivity | congruence]).
  all: eexists; split; [reflexivity|].
  all: compare_cases; simpl in *; subst; try congruence; try lia.
Qed.


(** [===] is transitive. *)
Lemma strict_eq_trans (x y z : number) :
  Number.strict_eq x y = true -> Number.strict_eq y z = true -> Number.strict_eq x z = true.
Proof.
  unfold Number.strict_eq, SFeqb. intros Hxy Hyz.
  destruct (SFcompare x y) as [[] |] eqn:Exy; try discriminate.
  destruct (SFcompare y z) as [[] |] eqn:Eyz; try discriminate.
  destruct (SFcompare_le_trans x y z Eq Eq Exy Eyz) as (c & Hc & Hle); try discriminate.
  pose proof (SFcompare_antisym x y) as Ayx. rewrite Exy in Ayx.
  pose proof (SFcompare_antisym y z) as Azy. rewrite Eyz in Azy.
  destruct (SFcompare_le_trans z y x Eq Eq Azy Ayx) as (c' & Hc' & Hle'); try discriminate.
  rewrite (SFcompare_antisym x z), Hc in Hc'. injection Hc' as <-.
  rewrite Hc. destruct c; simpl in *; congruence.
Qed.

Lemma strict_eq_sym (x y : number) : Number.strict_eq x y = Number.strict_eq y x.
Proof.
  unfold Number.strict_eq, SFeqb. rewrite (SFcompare_antisym y x).
  destruct (SFcompare y x) as [[] |]; reflexivity.
Qed.

Lemma strict_eq_not_NaN (x y : number) :
  Number.strict_eq x y = true -> Number.is_NaN x = false /\ Number.is_NaN y = false.
Proof. destruct x, y; simpl; intros H; split; (reflexivity || discriminate). Qed.

(** A length below [2^53] is a safe integer. *)
Lemma safe_of_nat (n : nat) : Z.of_nat n < 2 ^ 53 -> Number.safe (Z.of_nat n).
Proof. unfold Number.safe. lia. Qed.

Lemma safe_const (n : Z) : Z.abs n < 1000 -> Number.safe n.
Proof. unfold Number.safe. intros H. eapply Z.lt_trans; [exact H | reflexivity]. Qed.

(** ** NaN *)

Lemma add_NaN_l (x : number) : Number.add Number.NaN x = Number.NaN.
Proof. reflexivity. Qed.

Lemma add_NaN_r (x : number) : Number.add x Number.NaN = Number.NaN.
Proof. now destruct x. Qed.
End MoreFloatFacts.

(* ===================================================================== *)
(** * password.ts: further properties *)
(* ===================================================================== *)

Section PasswordMore.
Import Password PasswordErrors.
Implicit Types (h : gmap loc Password) (password : loc) (p : Password).

Lemma alloc_grows {O} (h : gmap loc O) (o : O) : h ⊆ <[fresh (dom h) := o]> h.
Proof. apply insert_subseteq, fresh_unused. Qed.

(** X1. Neither [validate] nor [hash] changes or drops an object: every
    object of the heap before the call is in the heap after it, as it
    was, whatever the call returns. *)
Theorem validate_hash_frame spec (hashFn : HashFn) h password p :
  h !! password = Some p ->
  (exists r h', validate spec password h = Some (r, h') /\ h ⊆ h') /\
  (exists r h', hash hashFn password h = Some (r, h') /\ h ⊆ h').
Proof.
  intros Hp. split.
  - rewrite (validate_run spec h password p Hp).
    destruct (Number.lt _ _); [eexists _, _; split; [reflexivity | reflexivity] |].
    destruct (_ && _); [eexists _, _; split; [reflexivity | reflexivity] |].
    eexists _, _; split; [reflexivity | apply alloc_grows].
  - rewrite (hash_run hashFn h password p Hp).
    destruct (hashFn (value p)) as [[e | v] | e];
      eexists _, _; (split; [reflexivity|]); (reflexivity || apply alloc_grows).
Qed.

(** X2. The verdict of [validate] depends on the [value] of the password
    only: two passwords with the same value, whatever their [isHashed]
    and [isValidated], are rejected with the same error or both
    accepted. *)
Theorem validate_reads_value_only spec h1 h2 l1 l2 p q :
  h1 !! l1 = Some p -> h2 !! l2 = Some q -> value p = value q ->
  (forall e, validate spec l1 h1 = Some (Normal (E.left e), h1)
             <-> validate spec l2 h2 = Some (Normal (E.left e), h2)) /\
  ((exists l h', validate spec l1 h1 = Some (Normal (E.right l), h'))
   <-> (exists l h', validate spec l2 h2 = Some (Normal (E.right l), h'))).
Proof.
  intros Hp Hq Hv.
  rewrite (validate_run spec h1 l1 p Hp), (validate_run spec h2 l2 q Hq), Hv.
  destruct (Number.lt _ _).
  { split; [intros e; split; intros [= <-]; reflexivity|].
    split; intros (l & h' & H); discriminate. }
  destruct (_ && _).
  { split; [intros e; split; intros [= <-]; reflexivity|].
    split; intros (l & h' & H); discriminate. }
  split; [intros e; split; intros H; discriminate|].
  split; intros _; eexists _, _; reflexivity.
Qed.

(** X3. Validation can be repeated: the object an accepting [validate]
    returns is accepted again by [validate] with the same specification,
    and the object it then returns has the same fields. *)
Theorem validate_again spec h password p l h' :
  h !! password = Some p ->
  validate spec password h = Some (Normal (E.right l), h') ->
  exists l2 h2,
    validate spec l h' = Some (Normal (E.right l2), h2) /\
    h' !! l = Some (validated p) /\
    h2 !! l2 = Some (validated p).
Proof.
  intros Hp Hv. rewrite (validate_run spec h password p Hp) in Hv.
  destruct (Number.lt _ _) eqn:Hlt; [discriminate|].
  destruct (_ && _) eqn:Hcap; [discriminate|].
  injection Hv as <- <-.
  assert (Hl : <[fresh (dom h) := validated p]> h !! fresh (dom h) = Some (validated p))
    by apply lookup_insert_eq.
  rewrite (validate_run spec _ _ (validated p) Hl). simpl value. rewrite Hlt, Hcap.
  eexists _, _. split; [reflexivity|]. split; [exact Hl|]. apply lookup_insert_eq.
Qed.

(** X4. [hash] does not look at [isHashed]: hashing the object that
    [hash] returned applies the hash function a second time, to the
    hashed value. *)
Theorem hash_twice (hashFn : HashFn) h password p v1 v2 :
  h !! password = Some p ->
  hashFn (value p) = Normal (E.right v1) ->
  hashFn v1 = Normal (E.right v2) ->
  exists l1 h1 l2 h2,
    hash hashFn password h = Some (Normal (E.right l1), h1) /\
    isHashed <$> h1 !! l1 = Some true /\
    hash hashFn l1 h1 = Some (Normal (E.right l2), h2) /\
    h2 !! l2 = Some (hashed p v2).
Proof.
  intros Hp H1 H2.
  assert (Hl : <[fresh (dom h) := hashed p v1]> h !! fresh (dom h) = Some (hashed p v1))
    by apply lookup_insert_eq.
  eexists _, _, _, _. split.
  { rewrite (hash_run hashFn h password p Hp), H1. reflexivity. }
  split; [now rewrite Hl|]. split.
  { rewrite (hash_run hashFn _ _ (hashed p v1) Hl). simpl value. rewrite H2. reflexivity. }
  apply lookup_insert_eq.
Qed.

(** X5. With an integer [minLength] the length test is the comparison of
    integers, and the outcome of [validate] is decided by it and by the
    presence of a code unit in A-Z. *)
Theorem validate_integer_minLength (m : Z) (c : option bool) h password p :
  h !! password = Some p ->
  Number.safe m ->
  (Z.of_nat (length (value p)) < 2 ^ 53)%Z ->
  validate (Some {| minLength := Some (Number.of_Z m); capitalLetterRequired := c |}) password h
  = if (Z.of_nat (length (value p)) <? m)%Z then
      Some (Normal (E.left (MinLengthValidationError (Number.of_Z m))), h)
    else if default false c && negb (JsString.test_A_Z (value p)) then
      Some (Normal (E.left CapitalLetterMissingValidationError), h)
    else
      Some (Normal (E.right (fresh (dom h))), <[fresh (dom h) := validated p]> h).
Proof.
  intros Hp Hm Hn. rewrite (validate_run _ h password p Hp).
  unfold JsString.length_of, Number.of_nat.
  change (minLength_of (Some {| minLength := Some (Number.of_Z m); capitalLetterRequired := c |}))
    with (Number.of_Z m).
  rewrite lt_of_Z by (assumption || now apply safe_of_nat). reflexivity.
Qed.

Lemma lt_nonneg_disabled (x m : number) :
  Number.nonneg_shape x ->
  Number.is_NaN m = true \/ Number.le m (Number.of_Z 0) = true ->
  Number.lt x m = false.
Proof.
  intros Hx [Hm | Hm].
  - destruct m; try discriminate. now destruct x.
  - destruct x as [[] | [] | | [] mx ex]; try destruct Hx;
      destruct m as [sm | [] | | [] mm em]; simpl in *; try reflexivity; try discriminate.
Qed.

(** X6. A [minLength] that is NaN, zero or negative switches the length
    rule off: [validate] behaves as if no [minLength] had been given. *)
Theorem validate_minLength_disabled (m : number) (c : option bool) h password p :
  h !! password = Some p ->
  Number.is_NaN m = true \/ Number.le m (Number.of_Z 0) = true ->
  validate (Some {| minLength := Some m; capitalLetterRequired := c |}) password h
  = validate (Some {| minLength := None; capitalLetterRequired := c |}) password h.
Proof.
  intros Hp Hm. rewrite !(validate_run _ h password p Hp).
  change (minLength_of (Some {| minLength := Some m; capitalLetterRequired := c |})) with m.
  change (minLength_of (Some {| minLength := None; capitalLetterRequired := c |}))
    with (Number.of_Z 0).
  unfold JsString.length_of.
  rewrite (lt_nonneg_disabled _ m (of_nat_nonneg _) Hm).
  rewrite (lt_zero_nonneg _ (of_nat_nonneg _)). reflexivity.
Qed.
End PasswordMore.

(* ===================================================================== *)
(** * task-and-either.ts: the pipeline *)
(* ===================================================================== *)

Section PipelineFacts.
Import Password PasswordErrors TaskAndEither.
Local Open Scope Z_scope.

(** X7. The pipeline, on every string: shorter than 8 code units, the
    min-length error; otherwise, without a code unit in A-Z, the
    capital-letter error; otherwise a success holding a new password
    whose value is the string between two ["HASH"], hashed and
    validated. The hash function never fails, so no error of the hash
    step comes out. The password built by [Password.of] stays in the
    heap in every case, unchanged. *)
Theorem pipeline_outcome (s : jsstring) (h : gmap loc Password) :
  Z.of_nat (length s) < 2 ^ 53 ->
  let p0 := {| _tag := TagPassword; value := s; isHashed := false; isValidated := None |} in
  let h0 := <[fresh (dom h) := p0]> h in
  let h1 := <[fresh (dom h0) := validated p0]> h0 in
  pipeline s h =
    if Z.of_nat (length s) <? 8 then
      Some (Normal (E.left (inl (MinLengthValidationError (Number.of_Z 8)))), h0)
    else if negb (JsString.test_A_Z s) then
      Some (Normal (E.left (inl CapitalLetterMissingValidationError)), h0)
    else
      Some (Normal (E.right (fresh (dom h1))),
            <[fresh (dom h1) :=
                hashed (validated p0) (JsString.str "HASH" ++ s ++ JsString.str "HASH")]> h1).
Proof.
  intros Hlen p0 h0 h1. unfold pipeline.
  rewrite (run_bind _ _ h (fresh (dom h)) h0 (run_alloc h p0)).
  assert (H0 : h0 !! fresh (dom h) = Some p0) by apply lookup_insert_eq.
  pose proof (validate_run (Some {| minLength := Some (Number.of_Z 8);
                                    capitalLetterRequired := Some true |})
                h0 (fresh (dom h)) p0 H0) as Hv.
  change (minLength_of _) with (Number.of_Z 8) in Hv.
  change (capitalLetterRequired_of _) with true in Hv.
  unfold JsString.length_of, Number.of_nat in Hv. simpl value in Hv.
  rewrite lt_of_Z in Hv by (apply safe_of_nat; exact Hlen) || (apply safe_const; simpl; lia).
  rewrite andb_true_l in Hv.
  destruct (Z.of_nat (length s) <? 8).
  { rewrite (run_bind _ _ _ _ _ Hv). reflexivity. }
  destruct (negb (JsString.test_A_Z s)).
  { rewrite (run_bind _ _ _ _ _ Hv). reflexivity. }
  rewrite (run_bind _ _ _ _ _ Hv). fold h1. simpl E.mapLeft. unfold E.chain.
  assert (H1 : h1 !! fresh (dom h0) = Some (validated p0)) by apply lookup_insert_eq.
  pose proof (hash_run hashFn h1 (fresh (dom h0)) (validated p0) H1) as Hh.
  simpl in Hh. rewrite (run_bind _ _ _ _ _ Hh). reflexivity.
Qed.

Lemma pipeline_outcome_witness :
  Z.of_nat (length (JsString.str "Passw0rd!")) < 2 ^ 53 /\
  pipeline (JsString.str "Passw0rd!") ∅
  = Some (Normal (E.right 3%positive),
          {[ 1%positive := Samples.pw "Passw0rd!";
             2%positive := validated (Samples.pw "Passw0rd!");
             3%positive := hashed (validated (Samples.pw "Passw0rd!"))
                             (JsString.str "HASHPassw0rd!HASH") ]}).
Proof.
  split; [reflexivity|].
  rewrite (pipeline_outcome (JsString.str "Passw0rd!") ∅ eq_refl).
  vm_compute. reflexivity.
Defined.
End PipelineFacts.

(* ===================================================================== *)
(** * eq.ts: further properties *)
(* ===================================================================== *)

Section EqMore.
Import Eq.

(** X8. [eqNumber.equals] is symmetric and transitive, and it holds
    between a number and itself exactly when the number is not NaN. *)
Theorem eqNumber_laws {O} (h : gmap loc O) (a b c : number) :
  equals eqNumber a b h = equals eqNumber b a h /\
  (equals eqNumber a b h = Some (Normal true, h) ->
   equals eqNumber b c h = Some (Normal true, h) ->
   equals eqNumber a c h = Some (Normal true, h)) /\
  (equals eqNumber a a h = Some (Normal true, h) <-> Number.is_NaN a = false).
Proof.
  unfold eqNumber, equals, strict_equal, strict_equal_number.
  change (@mret (M O) _ bool) with (@Heap.ret O bool). unfold Heap.ret.
  split; [now rewrite (strict_eq_sym a b)|]. split.
  - intros [= H1] [= H2]. now rewrite (strict_eq_trans a b c H1 H2).
  - split.
    + intros [= H]. now apply strict_eq_not_NaN in H.
    + intros H. now rewrite (strict_eq_refl a H).
Qed.

Lemma eqNumber_laws_witness :
  equals eqNumber (Number.of_Z 1) (Number.of_Z 1) (∅ : gmap loc unit) = Some (Normal true, ∅) /\
  Number.is_NaN (Number.of_Z 1) = false.
Proof.
  split; [| reflexivity].
  apply (proj2 (proj2 (eqNumber_laws (∅ : gmap loc unit) (Number.of_Z 1) (Number.of_Z 1)
                         (Number.of_Z 1)))).
  reflexivity.
Defined.

(** A scan with a test that only reads the heap. *)
Lemma array_some_run {O A} (p : A -> M O bool) (f : A -> bool) (items : list A)
    (h : gmap loc O) :
  (forall a, In a items -> p a h = Some (Normal (f a), h)) ->
  array_some p items h = Some (Normal (existsb f items), h).
Proof.
  induction items as [| a items IH]; intros Hp; [reflexivity|].
  simpl array_some. rewrite (run_bind _ _ h (f a) h (Hp a (or_introl eq_refl))).
  simpl existsb. destruct (f a); [reflexivity|].
  apply IH. intros a' Ha'. apply Hp. now right.
Qed.

(** X9. [elem(eqNumber)(a, list)] is true exactly when some element of
    the list is [===] to [a]. Hence NaN is found in no list, and nothing
    is found in the empty list. *)
Theorem elem_eqNumber {O} (h : gmap loc O) (a : number) (items : list number) :
  exists r, elem eqNumber a items h = Some (Normal r, h) /\
    (r = true <-> exists b, In b items /\ Number.strict_eq b a = true) /\
    (Number.is_NaN a = true -> r = false) /\
    (items = [] -> r = false).
Proof.
  exists (existsb (fun b => Number.strict_eq b a) items). split.
  - unfold elem. now apply array_some_run.
  - split; [apply existsb_exists|]. split.
    + intros Ha. apply not_true_is_false. intros (b & _ & Hb)%existsb_exists.
      apply strict_eq_not_NaN in Hb as [_ Hb]. congruence.
    + now intros ->.
Qed.

Lemma elem_eqNumber_witness :
  exists r, elem eqNumber Number.NaN [Number.NaN] (∅ : gmap loc unit) = Some (Normal r, ∅) /\
            r = false.
Proof.
  destruct (elem_eqNumber (∅ : gmap loc unit) Number.NaN [Number.NaN]) as (r & Hr & _ & Hn & _).
  exists r. split; [exact Hr | exact (Hn eq_refl)].
Defined.

(** The two calls of [eq.ts]: 11 is not in [[1, 2, 3, 4]], 2 is. *)
Example elem_eqNumber_calls :
  elem eqNumber (Number.of_Z 11) (map Number.of_Z [1; 2; 3; 4]%Z) (∅ : gmap loc unit)
  = Some (Normal false, ∅) /\
  elem eqNumber (Number.of_Z 2) (map Number.of_Z [1; 2; 3; 4]%Z) (∅ : gmap loc unit)
  = Some (Normal true, ∅).
Proof. split; vm_compute; reflexivity. Qed.

(** X10. On users [eqUser.equals] is an equivalence: every user is equal
    to itself (also with id NaN, by the shortcut on references), the
    answer does not depend on the order of the arguments, and equality
    goes through a third user. *)
Theorem eqUser_equivalence (h : gmap loc User) l1 l2 l3 u1 u2 u3 :
  h !! l1 = Some u1 -> h !! l2 = Some u2 -> h !! l3 = Some u3 ->
  equals eqUser l1 l1 h = Some (Normal true, h) /\
  equals eqUser l1 l2 h = equals eqUser l2 l1 h /\
  (equals eqUser l1 l2 h = Some (Normal true, h) ->
   equals eqUser l2 l3 h = Some (Normal true, h) ->
   equals eqUser l1 l3 h = Some (Normal true, h)).
Proof.
  intros H1 H2 H3.
  rewrite (eqUser_run h l1 l1 u1 u1 H1 H1), (eqUser_run h l1 l2 u1 u2 H1 H2),
    (eqUser_run h l2 l1 u2 u1 H2 H1), (eqUser_run h l2 l3 u2 u3 H2 H3),
    (eqUser_run h l1 l3 u1 u3 H1 H3).
  rewrite Pos.eqb_refl, (Pos.eqb_sym l2 l1), (strict_eq_sym (id u2) (id u1)).
  split; [reflexivity|]. split; [reflexivity|].
  intros [= E12] [= E23]. do 3 f_equal.
  destruct (Pos.eqb_spec l1 l2) as [-> | N12].
  { rewrite H1 in H2. injection H2 as <-. exact E23. }
  destruct (Pos.eqb_spec l2 l3) as [-> | N23].
  { rewrite H2 in H3. injection H3 as <-. simpl in E12.
    destruct (Pos.eqb_spec l1 l3); [contradiction|]. exact E12. }
  simpl in E12, E23. rewrite (strict_eq_trans _ _ _ E12 E23). apply orb_true_r.
Qed.

Lemma eqUser_equivalence_witness :
  Samples.nan_users !! 1%positive = Some {| id := Number.NaN; name := JsString.str "Ryan" |} /\
  equals eqUser 1%positive 1%positive Samples.nan_users = Some (Normal true, Samples.nan_users).
Proof.
  split; [reflexivity|].
  refine (proj1 (eqUser_equivalence Samples.nan_users 1%positive 1%positive 1%positive
                   {| id := Number.NaN; name := JsString.str "Ryan" |}
                   {| id := Number.NaN; name := JsString.str "Ryan" |}
                   {| id := Number.NaN; name := JsString.str "Ryan" |} _ _ _)); reflexivity.
Defined.
End EqMore.

(* ===================================================================== *)
(** * eq.ts: points and arrays of points *)
(* ===================================================================== *)

Section EqPointFacts.
Import Eq.
Implicit Types (h : gmap loc Obj) (l : loc) (p : Point).

Lemma read_point_run h l p : h !! l = Some (ObjPoint p) -> read_point l h = Some (Normal p, h).
Proof. intros H. unfold read_point. now rewrite H. Qed.

Lemma read_array_run h l items :
  h !! l = Some (ObjArray items) -> read_array l h = Some (Normal items, h).
Proof. intros H. unfold read_array. now rewrite H. Qed.

Lemma field_number_run h l1 l2 p1 p2 (get : Point -> number) :
  h !! l1 = Some (ObjPoint p1) -> h !! l2 = Some (ObjPoint p2) ->
  field (fun l => p ← read_point l; mret (get p)) eqNumber l1 l2 h
  = Some (Normal (Number.strict_eq (get p1) (get p2)), h).
Proof.
  intros H1 H2. unfold field.
  assert (Hg : forall l p, h !! l = Some (ObjPoint p) ->
               (p ← read_point l; mret (get p)) h = Some (Normal (get p), h)).
  { intros l p H. now rewrite (run_bind _ _ h p h (read_point_run h l p H)). }
  rewrite (run_bind _ _ h _ h (Hg l1 p1 H1)), (run_bind _ _ h _ h (Hg l2 p2 H2)).
  reflexivity.
Qed.

Lemma eqPoint_run h l1 l2 p1 p2 :
  h !! l1 = Some (ObjPoint p1) -> h !! l2 = Some (ObjPoint p2) ->
  equals eqPoint l1 l2 h
  = Some (Normal (Pos.eqb l1 l2
                  || (Number.strict_eq (x p1) (x p2) && Number.strict_eq (y p1) (y p2))), h).
Proof.
  intros H1 H2.
  unfold eqPoint, getStructEq, fromEquals, equals, strict_equal, strict_equal_object.
  destruct (Pos.eqb l1 l2); [reflexivity|]. simpl struct_equals.
  rewrite (run_bind _ _ h _ h (field_number_run h l1 l2 p1 p2 x H1 H2)).
  destruct (Number.strict_eq (x p1) (x p2)); [|reflexivity].
  rewrite (run_bind _ _ h _ h (field_number_run h l1 l2 p1 p2 y H1 H2)).
  destruct (Number.strict_eq (y p1) (y p2)); reflexivity.
Qed.

(** X11. [eqPoint.equals] on two points: true exactly when they are one
    object or both their [x] and their [y] are [===]. The heap is only
    read. *)
Theorem eqPoint_equals h l1 l2 p1 p2 :
  h !! l1 = Some (ObjPoint p1) -> h !! l2 = Some (ObjPoint p2) ->
  exists r, equals eqPoint l1 l2 h = Some (Normal r, h) /\
    (r = true <-> l1 = l2 \/
       (Number.strict_eq (x p1) (x p2) = true /\ Number.strict_eq (y p1) (y p2) = true)).
Proof.
  intros H1 H2. eexists. split; [exact (eqPoint_run h l1 l2 p1 p2 H1 H2)|].
  rewrite orb_true_iff, andb_true_iff, Pos.eqb_eq. reflexivity.
Qed.

Lemma every_with_eqPoint h (xs ys : list loc) :
  points_at h xs -> points_at h ys -> length xs = length ys ->
  exists r, every_with eqPoint xs ys h = Some (Normal r, h) /\
    (r = true <-> Forall2 (fun l l' => equals eqPoint l l' h = Some (Normal true, h)) xs ys).
Proof.
  revert ys. induction xs as [| a xs IH]; intros [| b ys] Hx Hy Hlen; try discriminate.
  - exists true. split; [reflexivity|]. split; [constructor | reflexivity].
  - apply Forall_cons_iff in Hx as [[pa Ha] Hx]. apply Forall_cons_iff in Hy as [[pb Hb] Hy].
    injection Hlen as Hlen. destruct (IH ys Hx Hy Hlen) as (r & Hr & Hiff).
    pose proof (eqPoint_run h a b pa pb Ha Hb) as Hab.
    simpl every_with. rewrite (run_bind _ _ h _ h Hab).
    destruct (Pos.eqb a b || _) eqn:E.
    + exists r. split; [exact Hr|]. rewrite Hiff. split.
      * intros HF. constructor; [now rewrite Hab | exact HF].
      * intros HF. now apply Forall2_cons_iff in HF as [_ HF].
    + exists false. split; [reflexivity|]. split; [discriminate|].
      intros HF. apply Forall2_cons_iff in HF as [HF _]. rewrite Hab in HF. congruence.
Qed.

(** X12. [eqArrayOfPoint.equals] on two arrays of points: true exactly
    when they are one array, or they have the same length and their
    points are equal for [eqPoint] index by index; the order of the
    points matters. The heap is only read. *)
Theorem eqArrayOfPoint_equals h a b xs ys :
  h !! a = Some (ObjArray xs) -> h !! b = Some (ObjArray ys) ->
  points_at h xs -> points_at h ys ->
  (Z.of_nat (length xs) < 2 ^ 32)%Z -> (Z.of_nat (length ys) < 2 ^ 32)%Z ->
  exists r, equals eqArrayOfPoint a b h = Some (Normal r, h) /\
    (r = true <->
     a = b \/ (length xs = length ys /\
               Forall2 (fun l l' => equals eqPoint l l' h = Some (Normal true, h)) xs ys)).
Proof.
  intros Ha Hb Hx Hy Lx Ly.
  unfold eqArrayOfPoint, getEq, fromEquals, equals, strict_equal, strict_equal_object.
  destruct (Pos.eqb_spec a b) as [-> | Hne].
  { exists true. split; [reflexivity|]. split; [now left | reflexivity]. }
  rewrite (run_bind _ _ h _ h (read_array_run h a xs Ha)).
  rewrite (run_bind _ _ h _ h (read_array_run h b ys Hb)).
  unfold Number.of_nat. rewrite strict_eq_of_Z by (unfold Number.safe; lia).
  destruct (Z.eqb_spec (Z.of_nat (length xs)) (Z.of_nat (length ys))) as [E | N].
  - apply Nat2Z.inj in E. destruct (every_with_eqPoint h xs ys Hx Hy E) as (r & Hr & Hiff).
    exists r. split; [exact Hr|]. rewrite Hiff. split; [now right|].
    intros [-> | [_ HF]]; [contradiction | exact HF].
  - exists false. split; [reflexivity|]. split; [discriminate|].
    intros [-> | [E _]]; [contradiction | lia].
Qed.
Lemma eqPoint_equals_witness :
  Samples.arrays_of_points !! 2%positive = Some (Samples.pt 1 1) /\
  Samples.arrays_of_points !! 7%positive = Some (Samples.pt 1 1) /\
  exists r, equals eqPoint 2%positive 7%positive Samples.arrays_of_points
            = Some (Normal r, Samples.arrays_of_points) /\
    (r = true <-> 2%positive = 7%positive \/
       (Number.strict_eq (Number.of_Z 1) (Number.of_Z 1) = true /\
        Number.strict_eq (Number.of_Z 1) (Number.of_Z 1) = true)).
Proof.
  split; [reflexivity|]. split; [reflexivity|].
  apply (eqPoint_equals Samples.arrays_of_points 2%positive 7%positive
           {| x := Number.of_Z 1; y := Number.of_Z 1 |}
           {| x := Number.of_Z 1; y := Number.of_Z 1 |}); reflexivity.
Defined.

Lemma points_at_sample (ls : list loc) :
  forallb (fun l => match Samples.arrays_of_points !! l with
                    | Some (ObjPoint _) => true
                    | _ => false
                    end) ls = true ->
  points_at Samples.arrays_of_points ls.
Proof.
  intros H. apply Stdlib.Lists.List.Forall_forall. intros l Hl.
  rewrite forallb_forall in H. specialize (H l Hl).
  destruct (Samples.arrays_of_points !! l) as [[p | items] |]; try discriminate. now exists p.
Qed.

Lemma eqArrayOfPoint_equals_witness :
  exists r, equals eqArrayOfPoint 1%positive 5%positive Samples.arrays_of_points
            = Some (Normal r, Samples.arrays_of_points) /\
    (r = true <->
     1%positive = 5%positive \/
     (length [2; 3; 4]%positive = length [6; 7; 8]%positive /\
      Forall2 (fun l l' => equals eqPoint l l' Samples.arrays_of_points
                           = Some (Normal true, Samples.arrays_of_points))
        [2; 3; 4]%positive [6; 7; 8]%positive)).
Proof.
  apply (eqArrayOfPoint_equals Samples.arrays_of_points 1%positive 5%positive
           [2; 3; 4]%positive [6; 7; 8]%positive);
    try reflexivity; now apply points_at_sample.
Defined.

(** The last call of [elem] in [eq.ts]: the array is found in neither of
    the two, the first having its points in another order and the second
    one point more. *)
Example elem_eqArrayOfPoint_call :
  elem eqArrayOfPoint 1%positive [5; 9]%positive Samples.arrays_of_points
  = Some (Normal false, Samples.arrays_of_points).
Proof. vm_compute. reflexivity. Qed.
End EqPointFacts.

(* ===================================================================== *)
(** * The semigroup example: further properties *)
(* ===================================================================== *)

Section SemigroupMore.
Import Semigroup.
Local Open Scope Z_scope.

(** X13. The order of the two arguments does not matter to
    [semigroupSum.concat], [semigroupProduct.concat] and
    [semigroupPoint.concat], on all numbers. *)
Theorem concat_commutative (a b : number) (p q : Point) :
  concat semigroupSum a b = concat semigroupSum b a /\
  concat semigroupProduct a b = concat semigroupProduct b a /\
  concat semigroupPoint p q = concat semigroupPoint q p.
Proof.
  split; [apply add_comm|]. split; [apply mul_comm|].
  simpl. now rewrite (add_comm (x p)), (add_comm (y p)).
Qed.

Lemma SFcompare_refl (a : number) : Number.is_NaN a = false -> SFcompare a a = Some Eq.
Proof.
  intros H. apply strict_eq_refl in H. unfold Number.strict_eq, SFeqb in H.
  destruct (SFcompare a a) as [[] |]; congruence.
Qed.

Lemma min_compare (a b : number) (c : comparison) :
  SFcompare a b = Some c ->
  concat semigroupMin a b = match c with Gt => b | _ => a end.
Proof.
  intros H. simpl. unfold min, ordNumber, compare, Number.lt, SFltb.
  rewrite H, (SFcompare_antisym a b), H. now destruct c.
Qed.

Lemma max_compare (a b : number) (c : comparison) :
  SFcompare a b = Some c ->
  concat semigroupMax a b = match c with Lt => b | _ => a end.
Proof.
  intros H. simpl. unfold max, ordNumber, compare, Number.lt, SFltb.
  rewrite H, (SFcompare_antisym a b), H. now destruct c.
Qed.

Lemma le_compare (a b : number) (c : comparison) :
  SFcompare a b = Some c -> Number.le a b = match c with Gt => false | _ => true end.
Proof. intros H. unfold Number.le, SFleb. rewrite H. now destruct c. Qed.

(** X14. [semigroupMin.concat] and [semigroupMax.concat] return one of
    their two arguments; when neither is NaN the first is below both
    arguments and the second is above both. *)
Theorem semigroupMin_semigroupMax_bounds (a b : number) :
  (concat semigroupMin a b = a \/ concat semigroupMin a b = b) /\
  (concat semigroupMax a b = a \/ concat semigroupMax a b = b) /\
  (Number.is_NaN a = false -> Number.is_NaN b = false ->
   Number.le (concat semigroupMin a b) a = true /\
   Number.le (concat semigroupMin a b) b = true /\
   Number.le a (concat semigroupMax a b) = true /\
   Number.le b (concat semigroupMax a b) = true).
Proof.
  split; [simpl; unfold min; destruct (compare ordNumber a b); auto|].
  split; [simpl; unfold max; destruct (compare ordNumber a b); auto|].
  intros Ha Hb. destruct (SFcompare_total a b Ha Hb) as [c Hc].
  pose proof (SFcompare_antisym a b) as Hba. rewrite Hc in Hba. simpl in Hba.
  rewrite (min_compare a b c Hc), (max_compare a b c Hc).
  destruct c; simpl in Hba;
    rewrite ?(le_compare _ _ _ Hc), ?(le_compare _ _ _ Hba),
      ?(le_compare _ _ _ (SFcompare_refl a Ha)), ?(le_compare _ _ _ (SFcompare_refl b Hb));
    auto.
Qed.

Lemma semigroupMin_semigroupMax_bounds_witness :
  Number.is_NaN (Number.of_Z 2) = false /\ Number.is_NaN (Number.of_Z 1) = false /\
  concat semigroupMin (Number.of_Z 2) (Number.of_Z 1) = Number.of_Z 1 /\
  concat semigroupMax (Number.of_Z 2) (Number.of_Z 1) = Number.of_Z 2 /\
  Number.le (concat semigroupMin (Number.of_Z 2) (Number.of_Z 1)) (Number.of_Z 2) = true.
Proof.
  split; [reflexivity|]. split; [reflexivity|]. split; [reflexivity|]. split; [reflexivity|].
  apply (proj2 (proj2 (semigroupMin_semigroupMax_bounds (Number.of_Z 2) (Number.of_Z 1))));
    reflexivity.
Defined.

(** X15. When one of the two arguments is NaN, [semigroupMin.concat] and
    [semigroupMax.concat] return their first argument: NaN on the left
    is kept, NaN on the right is dropped. *)
Theorem semigroupMin_semigroupMax_NaN (a b : number) :
  Number.is_NaN a = true \/ Number.is_NaN b = true ->
  concat semigroupMin a b = a /\ concat semigroupMax a b = a.
Proof.
  intros [H | H].
  - destruct a; try discriminate. destruct b; split; reflexivity.
  - destruct b; try discriminate. destruct a; split; reflexivity.
Qed.

Lemma semigroupMin_semigroupMax_NaN_witness :
  Number.is_NaN Number.NaN = true /\
  concat semigroupMin (Number.of_Z 1) Number.NaN = Number.of_Z 1 /\
  concat semigroupMin Number.NaN (Number.of_Z 1) = Number.NaN.
Proof.
  split; [reflexivity|]. split.
  - apply (semigroupMin_semigroupMax_NaN (Number.of_Z 1) Number.NaN). now right.
  - apply (semigroupMin_semigroupMax_NaN Number.NaN (Number.of_Z 1)). now left.
Defined.

Ltac trans_contra Hxy Hyz Hxz :=
  let c := fresh "c" in
  let Hc := fresh "Hc" in
  let Hn := fresh "Hn" in
  destruct (SFcompare_le_trans _ _ _ _ _ Hxy Hyz) as (c & Hc & Hn);
  [discriminate | discriminate | rewrite Hxz in Hc; injection Hc as <-; congruence].

(** X16. [semigroupMin.concat] and [semigroupMax.concat] are associative
    on the numbers other than NaN. *)
Theorem semigroupMin_semigroupMax_associative (a b c : number) :
  Number.is_NaN a = false -> Number.is_NaN b = false -> Number.is_NaN c = false ->
  concat semigroupMin (concat semigroupMin a b) c
  = concat semigroupMin a (concat semigroupMin b c) /\
  concat semigroupMax (concat semigroupMax a b) c
  = concat semigroupMax a (concat semigroupMax b c).
Proof.
  intros Ha Hb Hc.
  destruct (SFcompare_total a b Ha Hb) as [cab Hab].
  destruct (SFcompare_total b c Hb Hc) as [cbc Hbc].
  destruct (SFcompare_total a c Ha Hc) as [cac Hac].
  pose proof (SFcompare_antisym a b) as Hba. rewrite Hab in Hba.
  pose proof (SFcompare_antisym b c) as Hcb. rewrite Hbc in Hcb.
  pose proof (SFcompare_antisym a c) as Hca. rewrite Hac in Hca.
  rewrite (min_compare a b cab Hab), (min_compare b c cbc Hbc),
    (max_compare a b cab Hab), (max_compare b c cbc Hbc).
  destruct cab, cbc, cac; simpl in Hba, Hcb, Hca;
    rewrite ?(min_compare _ _ _ Hab), ?(min_compare _ _ _ Hbc), ?(min_compare _ _ _ Hac),
      ?(max_compare _ _ _ Hab), ?(max_compare _ _ _ Hbc), ?(max_compare _ _ _ Hac);
    try (split; reflexivity); exfalso;
    first [ trans_contra Hab Hbc Hac | trans_contra Hbc Hca Hba | trans_contra Hca Hab Hcb
          | trans_contra Hcb Hba Hca | trans_contra Hba Hac Hbc | trans_contra Hac Hcb Hab ].
Qed.

Lemma semigroupMin_semigroupMax_associative_witness :
  Number.is_NaN (Number.of_Z 2) = false /\
  concat semigroupMin (concat semigroupMin (Number.of_Z 2) (Number.of_Z 1)) (Number.of_Z 3)
  = concat semigroupMin (Number.of_Z 2) (concat semigroupMin (Number.of_Z 1) (Number.of_Z 3)).
Proof.
  split; [reflexivity|].
  apply (semigroupMin_semigroupMax_associative (Number.of_Z 2) (Number.of_Z 1) (Number.of_Z 3));
    reflexivity.
Defined.

(** With NaN in the middle the two groupings of [semigroupMin.concat]
    differ: [min(min(2, NaN), 1)] is 1 and [min(2, min(NaN, 1))] is 2. *)
Example semigroupMin_NaN_not_associative :
  concat semigroupMin (concat semigroupMin (Number.of_Z 2) Number.NaN) (Number.of_Z 1)
  = Number.of_Z 1 /\
  concat semigroupMin (Number.of_Z 2) (concat semigroupMin Number.NaN (Number.of_Z 1))
  = Number.of_Z 2.
Proof. split; vm_compute; reflexivity. Qed.
End SemigroupMore.

(* ===================================================================== *)
(** * The semigroup example: structs, predicates, fold, options *)
(* ===================================================================== *)

Section SemigroupStructs.
Import Semigroup.
Local Open Scope Z_scope.

Lemma point_concat_of_Z (a b a' b' : Z) :
  Number.safe a -> Number.safe a' -> Number.safe (a + a') ->
  Number.safe b -> Number.safe b' -> Number.safe (b + b') ->
  concat semigroupPoint (point_of_Z a b) (point_of_Z a' b') = point_of_Z (a + a') (b + b').
Proof.
  intros. unfold point_of_Z. simpl. now rewrite !add_of_Z.
Qed.

(** X17. [semigroupVector.concat] adds the four coordinates; on safe
    integers whose sums are safe the result is the vector of the integer
    sums. *)
Theorem semigroupVector_concat_of_Z (a b c d a' b' c' d' : Z) :
  Forall Number.safe [a; b; c; d; a'; b'; c'; d'; a + a'; b + b'; c + c'; d + d'] ->
  concat semigroupVector (vector_of_Z a b c d) (vector_of_Z a' b' c' d')
  = vector_of_Z (a + a') (b + b') (c + c') (d + d').
Proof.
  intros H. repeat (apply Forall_cons_iff in H as [? H]).
  unfold vector_of_Z, semigroupVector, getStructSemigroup2.
  cbn [concat from to]. now rewrite !point_concat_of_Z.
Qed.

Lemma semigroupVector_concat_of_Z_witness :
  Forall Number.safe [1; 2; 3; 4; 10; 20; 30; 40; 1 + 10; 2 + 20; 3 + 30; 4 + 40] /\
  concat semigroupVector (vector_of_Z 1 2 3 4) (vector_of_Z 10 20 30 40)
  = vector_of_Z 11 22 33 44.
Proof.
  assert (H : Forall Number.safe [1; 2; 3; 4; 10; 20; 30; 40; 1 + 10; 2 + 20; 3 + 30; 4 + 40])
    by (repeat constructor; apply safe_const; simpl; lia).
  split; [exact H|]. exact (semigroupVector_concat_of_Z 1 2 3 4 10 20 30 40 H).
Defined.

(** X18. [isPositiveXY] holds of a point exactly when [x >= 0] and
    [y >= 0] both hold; a NaN coordinate makes it false, and on integer
    coordinates it is the test on the integers. *)
Theorem isPositiveXY_spec (p : Point) (a b : Z) :
  isPositiveXY p = isPositiveX p && isPositiveY p /\
  (Number.is_NaN (x p) = true \/ Number.is_NaN (y p) = true -> isPositiveXY p = false) /\
  (Number.safe a -> Number.safe b -> isPositiveXY (point_of_Z a b) = (0 <=? a) && (0 <=? b)).
Proof.
  split; [reflexivity|]. split.
  - intros [H | H]; unfold isPositiveXY; simpl; unfold isPositiveX, isPositiveY.
    + destruct (x p); try discriminate. reflexivity.
    + destruct (y p); try discriminate. apply andb_false_r.
  - intros Ha Hb.
    change (isPositiveXY (point_of_Z a b))
      with (Number.le (Number.of_Z 0) (Number.of_Z a)
            && Number.le (Number.of_Z 0) (Number.of_Z b)).
    now rewrite !le_of_Z by (assumption || (apply safe_const; simpl; lia)).
Qed.

Lemma isPositiveXY_spec_witness :
  Number.safe (-1) /\ Number.safe 1 /\
  isPositiveXY (point_of_Z (-1) 1) = false /\ isPositiveXY (point_of_Z 1 1) = true.
Proof.
  assert (H1 : Number.safe (-1)) by (apply safe_const; simpl; lia).
  assert (H2 : Number.safe 1) by (apply safe_const; simpl; lia).
  split; [exact H1|]. split; [exact H2|]. split.
  - exact (proj2 (proj2 (isPositiveXY_spec (point_of_Z 0 0) (-1) 1)) H1 H2).
  - exact (proj2 (proj2 (isPositiveXY_spec (point_of_Z 0 0) 1 1)) H2 H2).
Defined.

(** Adding the numbers of integers from the left is exact as long as
    the running sum is safe. *)
Lemma fold_add_of_Z (a : Z) (l : list Z) :
  Number.safe_run a l ->
  fold_left Number.add (map Number.of_Z l) (Number.of_Z a) = Number.of_Z (fold_left Z.add l a).
Proof.
  revert a. induction l as [| n l IH]; intros a H; [reflexivity|].
  destruct H as (Ha & Hn & H). simpl.
  rewrite add_of_Z; [apply IH; exact H | assumption | assumption |].
  destruct l; simpl in H; [exact H | apply H].
Qed.

(** X19. [fold(S)] goes through the array from the left, so folding a
    concatenation is folding the second part from the result of the
    first; and [sum], on integers that can be added one after the other
    within the safe integers, is the integer sum. *)
Theorem fold_sum_spec {A} (s : Semigroup A) (a0 : A) (l1 l2 : list A) (a : Z) (l : list Z) :
  fold s a0 (l1 ++ l2) = fold s (fold s a0 l1) l2 /\
  (Number.safe_run a l ->
   sum (Number.of_Z a) (map Number.of_Z l) = Number.of_Z (fold_left Z.add l a)).
Proof.
  split; [apply fold_left_app|]. apply fold_add_of_Z.
Qed.

(** [sum(0, [1, 2, 3, 4])] is 10. *)
Lemma fold_sum_spec_witness :
  Number.safe_run 0 [1; 2; 3; 4] /\
  sum (Number.of_Z 0) (map Number.of_Z [1; 2; 3; 4]) = Number.of_Z 10.
Proof.
  assert (H : Number.safe_run 0 [1; 2; 3; 4])
    by (simpl; repeat split; apply safe_const; simpl; lia).
  split; [exact H|].
  exact (proj2 (fold_sum_spec semigroupSum (Number.of_Z 0) [] [] 0 [1; 2; 3; 4]) H).
Defined.

(** X20. The semigroup of [getApplySemigroup]: the result is [none] as
    soon as one side is [none], it is [some] of the combined values
    otherwise, and it is associative wherever the semigroup it is built
    from is. *)
Theorem getApplySemigroup_spec {A} (s : Semigroup A) (u v w : Option A) :
  (concat (getApplySemigroup s) u v = none <-> u = none \/ v = none) /\
  (forall a b, u = some a -> v = some b ->
               concat (getApplySemigroup s) u v = some (concat s a b)) /\
  ((forall a b c, u = some a -> v = some b -> w = some c ->
                  concat s (concat s a b) c = concat s a (concat s b c)) ->
   concat (getApplySemigroup s) (concat (getApplySemigroup s) u v) w
   = concat (getApplySemigroup s) u (concat (getApplySemigroup s) v w)).
Proof.
  split; [| split].
  - destruct u, v; simpl; split; intros H; try discriminate; auto;
      destruct H; discriminate.
  - intros a b -> ->. reflexivity.
  - intros H. destruct u as [| a], v as [| b], w as [| c]; try reflexivity.
    simpl. now rewrite (H a b c).
Qed.

(** The two calls on [S] in the source: [some(1)] and [some(3)] give
    [some(4)]; [some(1)] and [none] give [none]. *)
Lemma getApplySemigroup_spec_witness :
  concat Semigroup.S (some (Number.of_Z 1)) (some (Number.of_Z 3)) = some (Number.of_Z 4) /\
  concat Semigroup.S (some (Number.of_Z 1)) none = none.
Proof.
  split.
  - exact (proj1 (proj2 (getApplySemigroup_spec semigroupSum (some (Number.of_Z 1))
                           (some (Number.of_Z 3)) none))
             (Number.of_Z 1) (Number.of_Z 3) eq_refl eq_refl).
  - apply (proj1 (getApplySemigroup_spec semigroupSum (some (Number.of_Z 1)) none none)).
    now right.
Defined.
End SemigroupStructs.

(* ===================================================================== *)
(** * The semigroup example: customers *)
(* ===================================================================== *)

Section CustomerFacts.
Import Semigroup.

Lemma compare_lengths (s t : jsstring) :
  JsString.short s -> JsString.short t ->
  compare ordNumber (JsString.length_of s) (JsString.length_of t)
  = if (length s <? length t)%nat then Less
    else if (length t <? length s)%nat then Greater else Equal.
Proof.
  intros Hs Ht. unfold ordNumber, compare, JsString.length_of, Number.of_nat.
  rewrite !lt_of_Z by now apply safe_of_nat.
  destruct (Nat.ltb_spec (length s) (length t)), (Nat.ltb_spec (length t) (length s));
    destruct (Z.ltb_spec (Z.of_nat (length s)) (Z.of_nat (length t)));
    destruct (Z.ltb_spec (Z.of_nat (length t)) (Z.of_nat (length s)));
    try reflexivity; lia.
Qed.

(** The semigroup of names keeps the longer name, the first one when the
    lengths are equal. *)
Lemma name_join (s t : jsstring) :
  JsString.short s -> JsString.short t ->
  concat (getJoinSemigroup (ord_contramap string_strict_eq JsString.length_of ordNumber)) s t
  = if (length s <? length t)%nat then t else s.
Proof.
  intros Hs Ht. simpl. unfold max, ord_contramap, fromCompare, compare at 1.
  unfold string_strict_eq. destruct (bool_decide_reflect (s = t)) as [-> | Hne].
  - now rewrite Nat.ltb_irrefl.
  - rewrite (compare_lengths s t Hs Ht).
    destruct (length s <? length t)%nat; [reflexivity|].
    destruct (length t <? length s)%nat; reflexivity.
Qed.

(** X21. Merging two customers: the name is the longer of the two names
    (the first one when they are as long), the favorite things are those
    of the first followed by those of the second, and a purchase by
    either is a purchase. *)
Theorem semigroupCustomer_concat (c1 c2 : Customer) :
  JsString.short (name c1) -> JsString.short (name c2) ->
  concat semigroupCustomer c1 c2
  = {| name := if (length (name c1) <? length (name c2))%nat then name c2 else name c1;
       favoriteThings := favoriteThings c1 ++ favoriteThings c2;
       hasMadePurchase := hasMadePurchase c1 || hasMadePurchase c2 |}.
Proof.
  intros H1 H2. unfold semigroupCustomer, getStructSemigroup3. cbn [concat].
  rewrite (name_join (name c1) (name c2) H1 H2). reflexivity.
Qed.

(** The three assertions of the source on [merged]. *)
Lemma semigroupCustomer_concat_witness :
  JsString.short (name customer1) /\ JsString.short (name customer2) /\
  name merged = JsString.str "Ryan Aubrey" /\
  length (favoriteThings merged) = 2%nat /\
  hasMadePurchase merged = true.
Proof.
  assert (H1 : JsString.short (name customer1)) by (unfold JsString.short; simpl; lia).
  assert (H2 : JsString.short (name customer2)) by (unfold JsString.short; simpl; lia).
  split; [exact H1|]. split; [exact H2|].
  unfold merged. rewrite (semigroupCustomer_concat customer1 customer2 H1 H2).
  repeat split.
Defined.

(** X22. [semigroupCustomer.concat] is associative. *)
Theorem semigroupCustomer_associative (c1 c2 c3 : Customer) :
  JsString.short (name c1) -> JsString.short (name c2) -> JsString.short (name c3) ->
  concat semigroupCustomer (concat semigroupCustomer c1 c2) c3
  = concat semigroupCustomer c1 (concat semigroupCustomer c2 c3).
Proof.
  intros H1 H2 H3. unfold semigroupCustomer, getStructSemigroup3, getMonoid_concat, semigroupAny.
  cbn [concat name favoriteThings hasMadePurchase].
  rewrite (name_join (name c1) (name c2) H1 H2), (name_join (name c2) (name c3) H2 H3).
  rewrite !name_join;
    try assumption;
    try (destruct (length (name c1) <? length (name c2))%nat; assumption);
    try (destruct (length (name c2) <? length (name c3))%nat; assumption).
  f_equal.
  - destruct (Nat.ltb_spec (length (name c1)) (length (name c2))),
             (Nat.ltb_spec (length (name c2)) (length (name c3)));
      repeat match goal with
        | |- context [(?n <? ?m)%nat] => destruct (Nat.ltb_spec n m)
        end; try reflexivity; lia.
  - now rewrite app_assoc.
  - now rewrite orb_assoc.
Qed.

Lemma semigroupCustomer_associative_witness :
  JsString.short (name customer1) /\ JsString.short (name customer2) /\
  concat semigroupCustomer (concat semigroupCustomer customer1 customer2) customer1
  = concat semigroupCustomer customer1 (concat semigroupCustomer customer2 customer1).
Proof.
  assert (H1 : JsString.short (name customer1)) by (unfold JsString.short; simpl; lia).
  assert (H2 : JsString.short (name customer2)) by (unfold JsString.short; simpl; lia).
  split; [exact H1|]. split; [exact H2|].
  exact (semigroupCustomer_associative customer1 customer2 customer1 H1 H2 H1).
Defined.
End CustomerFacts.

(* ===================================================================== *)
(** * The Option example *)
(* ===================================================================== *)

Section OptionFacts.
Import Semigroup OptionExample.

(** X23. The two ways of getting rid of the nesting agree on every
    input: flattening the nested option and chaining give the same
    option. It is [none] exactly when the object or its [bar] is
    missing, and [some] of the [baz] of the [bar] otherwise; the nested
    form of an object without [bar] is [some(none)]. *)
Theorem flattened_chained (foo : nullable Foo) :
  flattened foo = chained foo /\
  (flattened foo = none <-> foo = None \/ exists o, foo = Some o /\ bar o = None) /\
  (forall o b, foo = Some o -> bar o = Some b -> flattened foo = some (baz b)) /\
  (forall o, foo = Some o -> bar o = None -> nested foo = some none).
Proof.
  destruct foo as [[[b |]] |]; (split; [reflexivity|]); split.
  - split; [discriminate|]. intros [H | (o & [= <-] & H)]; discriminate.
  - split; [intros o b' [= <-] [= <-]; reflexivity | intros o [= <-]; discriminate].
  - split; [intros _; right; eexists; split; reflexivity | reflexivity].
  - split; [intros o b [= <-]; discriminate | intros o [= <-] _; reflexivity].
  - split; [intros _; now left | reflexivity].
  - split; intros; discriminate.
Qed.

(** The three expressions on the objects of the source. *)
Lemma flattened_chained_witness :
  nested (Some {| bar := None |}) = some none /\
  flattened (Some {| bar := None |}) = none /\
  chained (Some {| bar := Some {| baz := Some (JsString.str "hello") |} |})
  = some (Some (JsString.str "hello")).
Proof.
  split; [| split].
  - exact (proj2 (proj2 (proj2 (flattened_chained (Some {| bar := None |}))))
             {| bar := None |} eq_refl eq_refl).
  - apply (proj1 (proj2 (flattened_chained (Some {| bar := None |})))).
    right. eexists. split; reflexivity.
  - rewrite <- (proj1 (flattened_chained
                         (Some {| bar := Some {| baz := Some (JsString.str "hello") |} |}))).
    reflexivity.
Defined.
End OptionFacts.

(* ===================================================================== *)
(** * pipe-and-flow.ts: further properties *)
(* ===================================================================== *)

Section BillMore.
Import PipeAndFlow.
Local Open Scope Z_scope.

Lemma fold_left_add_ge (l : list Z) (a : Z) :
  Forall (fun n => 0 <= n) l -> a <= fold_left Z.add l a.
Proof.
  revert a. induction l as [| n l IH]; intros a H; simpl; [lia|].
  apply Forall_cons_iff in H as [Hn H]. specialize (IH (a + n) H). lia.
Qed.

Lemma safe_run_nonneg (l : list Z) (a : Z) :
  0 <= a -> Forall (fun n => 0 <= n) l -> fold_left Z.add l a < 2 ^ 53 ->
  Number.safe_run a l.
Proof.
  revert a. induction l as [| n l IH]; intros a Ha H Hsum; simpl in *.
  - unfold Number.safe. lia.
  - pose proof H as H'. apply Forall_cons_iff in H as [Hn H].
    pose proof (fold_left_add_ge l (a + n) H).
    repeat split; try (unfold Number.safe; lia). apply IH; [lia | assumption | assumption].
Qed.

(** X24. On line items that are non-negative integers with a total below
    [2^53], [sumLineItems] is the integer total, and so is the
    [beforeTax] of the bill. *)
Theorem sumLineItems_exact (l : list Z) :
  Forall (fun n => 0 <= n) l -> fold_left Z.add l 0 < 2 ^ 53 ->
  sumLineItems (map Number.of_Z l) = Number.of_Z (fold_left Z.add l 0) /\
  beforeTax (calculateBillTotal (map Number.of_Z l)) = Number.of_Z (fold_left Z.add l 0).
Proof.
  intros H Hsum.
  assert (E : sumLineItems (map Number.of_Z l) = Number.of_Z (fold_left Z.add l 0)).
  { unfold sumLineItems. apply fold_add_of_Z. now apply safe_run_nonneg. }
  split; [exact E|]. exact E.
Qed.

Lemma sumLineItems_exact_witness :
  Forall (fun n => 0 <= n) [10; 20; 12] /\ fold_left Z.add [10; 20; 12] 0 < 2 ^ 53 /\
  sumLineItems (map Number.of_Z [10; 20; 12]) = Number.of_Z 42.
Proof.
  assert (H : Forall (fun n => 0 <= n) [10; 20; 12]) by (repeat constructor; lia).
  assert (H' : fold_left Z.add [10; 20; 12] 0 < 2 ^ 53) by reflexivity.
  split; [exact H|]. split; [exact H'|].
  exact (proj1 (sumLineItems_exact [10; 20; 12] H H')).
Defined.

Lemma fold_left_add_NaN (l : list number) :
  fold_left (fun prev current => Number.add prev current) l Number.NaN = Number.NaN.
Proof. induction l as [| a l IH]; [reflexivity|]. simpl. exact IH. Qed.

(** X25. One line item that is NaN makes both amounts of the bill NaN,
    wherever it stands in the list. *)
Theorem calculateBillTotal_NaN (items : list number) :
  In Number.NaN items ->
  calculateBillTotal items = {| beforeTax := Number.NaN; afterTax := Number.NaN |}.
Proof.
  intros H. apply in_split in H as (l1 & l2 & ->).
  unfold calculateBillTotal, Fn.pipe3, sumLineItems.
  rewrite fold_left_app. simpl fold_left.
  rewrite (add_NaN_r (fold_left _ l1 _)), fold_left_add_NaN. reflexivity.
Qed.

Lemma calculateBillTotal_NaN_witness :
  In Number.NaN [Number.of_Z 10; Number.NaN; Number.of_Z 20] /\
  calculateBillTotal [Number.of_Z 10; Number.NaN; Number.of_Z 20]
  = {| beforeTax := Number.NaN; afterTax := Number.NaN |}.
Proof.
  assert (H : In Number.NaN [Number.of_Z 10; Number.NaN; Number.of_Z 20])
    by (right; left; reflexivity).
  split; [exact H|]. exact (calculateBillTotal_NaN _ H).
Defined.

(** X26. The bill depends on the order of the line items: 0.1, 0.2, 0.3
    and 0.3, 0.2, 0.1 have different totals (0.6000000000000001 and
    0.6). *)
Theorem calculateBillTotal_order_matters :
  ~ (forall l1 l2 : list number,
       Permutation l1 l2 -> beforeTax (calculateBillTotal l1) = beforeTax (calculateBillTotal l2)).
Proof.
  intros H.
  specialize (H [Samples.lit_0_1; Samples.lit_0_2; Samples.lit_0_3]
                [Samples.lit_0_3; Samples.lit_0_2; Samples.lit_0_1]).
  assert (P : Permutation [Samples.lit_0_1; Samples.lit_0_2; Samples.lit_0_3]
                          [Samples.lit_0_3; Samples.lit_0_2; Samples.lit_0_1]).
  { apply (Permutation_rev [Samples.lit_0_1; Samples.lit_0_2; Samples.lit_0_3]). }
  specialize (H P). vm_compute in H. discriminate.
Qed.
End BillMore.

(* ===================================================================== *)
(** * password.ts: the further properties at sample inputs *)
(* ===================================================================== *)

Section PasswordMoreRuns.
Import Password PasswordErrors Samples.

Lemma validate_hash_frame_witness :
  heap_of "Passw0rd!" !! 1%positive = Some (pw "Passw0rd!") /\
  (exists r h', validate spec8 1%positive (heap_of "Passw0rd!") = Some (r, h')
                /\ heap_of "Passw0rd!" ⊆ h') /\
  (exists r h', hash hash_ok 1%positive (heap_of "Passw0rd!") = Some (r, h')
                /\ heap_of "Passw0rd!" ⊆ h').
Proof.
  split; [reflexivity|].
  apply (validate_hash_frame spec8 hash_ok (heap_of "Passw0rd!") 1%positive (pw "Passw0rd!")).
  reflexivity.
Defined.

Lemma validate_reads_value_only_witness :
  heap_of "password" !! 1%positive = Some (pw "password") /\
  ({[ 7%positive := hashed (pw "x") (JsString.str "password") ]} : gmap loc Password)
    !! 7%positive = Some (hashed (pw "x") (JsString.str "password")) /\
  validate spec8 7%positive {[ 7%positive := hashed (pw "x") (JsString.str "password") ]}
  = Some (Normal (E.left CapitalLetterMissingValidationError),
          {[ 7%positive := hashed (pw "x") (JsString.str "password") ]}).
Proof.
  split; [reflexivity|]. split; [reflexivity|].
  refine (proj1 (proj1 (validate_reads_value_only spec8 (heap_of "password")
                          {[ 7%positive := hashed (pw "x") (JsString.str "password") ]}
                          1%positive 7%positive (pw "password")
                          (hashed (pw "x") (JsString.str "password"))
                          _ _ _) CapitalLetterMissingValidationError) _); reflexivity.
Defined.

Lemma validate_again_witness :
  heap_of "Passw0rd!" !! 1%positive = Some (pw "Passw0rd!") /\
  exists l2 h2,
    validate spec8 2%positive
      {[ 1%positive := pw "Passw0rd!"; 2%positive := validated (pw "Passw0rd!") ]}
    = Some (Normal (E.right l2), h2) /\
    ({[ 1%positive := pw "Passw0rd!"; 2%positive := validated (pw "Passw0rd!") ]}
       : gmap loc Password) !! 2%positive = Some (validated (pw "Passw0rd!")) /\
    h2 !! l2 = Some (validated (pw "Passw0rd!")).
Proof.
  split; [reflexivity|].
  apply (validate_again spec8 (heap_of "Passw0rd!") 1%positive (pw "Passw0rd!") 2%positive
           {[ 1%positive := pw "Passw0rd!"; 2%positive := validated (pw "Passw0rd!") ]});
    vm_compute; reflexivity.
Defined.

Lemma hash_twice_witness :
  heap_of "a" !! 1%positive = Some (pw "a") /\
  exists l1 h1 l2 h2,
    hash hash_ok 1%positive (heap_of "a") = Some (Normal (E.right l1), h1) /\
    isHashed <$> h1 !! l1 = Some true /\
    hash hash_ok l1 h1 = Some (Normal (E.right l2), h2) /\
    h2 !! l2 = Some (hashed (pw "a") (JsString.str "HASHHASHaHASHHASH")).
Proof.
  split; [reflexivity|].
  apply (hash_twice hash_ok (heap_of "a") 1%positive (pw "a") (JsString.str "HASHaHASH")
           (JsString.str "HASHHASHaHASHHASH")); reflexivity.
Defined.

Lemma validate_integer_minLength_witness :
  heap_of "23456" !! 1%positive = Some (pw "23456") /\
  Number.safe 8 /\
  validate spec8 1%positive (heap_of "23456")
  = Some (Normal (E.left (MinLengthValidationError (Number.of_Z 8))), heap_of "23456").
Proof.
  assert (H : Number.safe 8) by (apply safe_const; simpl; lia).
  split; [reflexivity|]. split; [exact H|].
  refine (validate_integer_minLength 8 (Some true) (heap_of "23456") 1%positive (pw "23456")
            _ H _); reflexivity.
Defined.

Lemma validate_minLength_disabled_witness :
  heap_of "" !! 1%positive = Some (pw "") /\
  Number.is_NaN Number.NaN = true /\
  validate (Some {| minLength := Some Number.NaN; capitalLetterRequired := None |})
    1%positive (heap_of "")
  = validate (Some {| minLength := None; capitalLetterRequired := None |})
      1%positive (heap_of "").
Proof.
  split; [reflexivity|]. split; [reflexivity|].
  apply (validate_minLength_disabled Number.NaN None (heap_of "") 1%positive (pw "")).
  - reflexivity.
  - now left.
Defined.
End PasswordMoreRuns.
